(** * OS memory-management simulator: TLB, page table, direct-mapped cache

    A shallow embedding of [simulator.py] (the class [MemorySimulator] of
    [gui_viewer.py] carries the same code, with [self.] in front of every
    global) and the properties of the translation pipeline.

    Python integers are [Z].  The module-level globals form one record
    [state]; every function of the source is a computation in the monad
    [M], which threads that record and keeps it when an exception is
    raised, as Python does: what was mutated before a [raise] stays
    mutated. *)

From Stdlib Require Import ZArith Lia.
From stdpp Require Import gmap list list_numbers strings.

Local Open Scope Z_scope.

(** ** Configuration *)

Definition MEMORY_SIZE : Z := 65536.
Definition PAGE_SIZE : Z := 256.
Definition TLB_SIZE : Z := 16.
Definition CACHE_SIZE : Z := 64.
Definition CACHE_LINE_SIZE : Z := 8.
Definition NUM_PAGES : Z := MEMORY_SIZE `div` PAGE_SIZE.

(** [int.bit_length()] *)
Definition bit_length (n : Z) : Z :=
  if decide (n = 0) then 0 else Z.log2 (Z.abs n) + 1.

Definition CACHE_OFFSET_BITS : Z := bit_length (CACHE_LINE_SIZE - 1).
Definition CACHE_INDEX_BITS : Z := bit_length (CACHE_SIZE - 1).
Definition CACHE_TAG_BITS : Z := 16 - CACHE_INDEX_BITS - CACHE_OFFSET_BITS.

(** ** Data structures *)

(** One cache line, the dict [{'tag', 'data', 'valid', 'dirty'}];
    ['data'] is a [bytearray]. *)
Record cache_line : Type := CacheLine {
  tag : Z;
  data : list Z;
  valid : bool;
  dirty : bool
}.

(** The dict [stats]; its six keys are fixed, so it is a record. *)
Record statistics : Type := Statistics {
  tlb_hits : Z;
  tlb_misses : Z;
  cache_hits : Z;
  cache_misses : Z;
  page_faults : Z;
  total_accesses : Z
}.

(** The globals of the module. [tlb_queue] is the deque, front first. *)
Record state : Type := State {
  main_memory : list Z;
  page_table : gmap Z Z;
  tlb : gmap Z Z;
  tlb_queue : list Z;
  cache : list cache_line;
  stats : statistics
}.

(** Field updates. *)
Definition set_main_memory (f : list Z → list Z) (s : state) : state :=
  State (f (main_memory s)) (page_table s) (tlb s) (tlb_queue s) (cache s) (stats s).
Definition set_page_table (f : gmap Z Z → gmap Z Z) (s : state) : state :=
  State (main_memory s) (f (page_table s)) (tlb s) (tlb_queue s) (cache s) (stats s).
Definition set_tlb (f : gmap Z Z → gmap Z Z) (s : state) : state :=
  State (main_memory s) (page_table s) (f (tlb s)) (tlb_queue s) (cache s) (stats s).
Definition set_tlb_queue (f : list Z → list Z) (s : state) : state :=
  State (main_memory s) (page_table s) (tlb s) (f (tlb_queue s)) (cache s) (stats s).
Definition set_cache (f : list cache_line → list cache_line) (s : state) : state :=
  State (main_memory s) (page_table s) (tlb s) (tlb_queue s) (f (cache s)) (stats s).
Definition set_stats (f : statistics → statistics) (s : state) : state :=
  State (main_memory s) (page_table s) (tlb s) (tlb_queue s) (cache s) (f (stats s)).

Definition incr_tlb_hits (st : statistics) : statistics :=
  Statistics (tlb_hits st + 1) (tlb_misses st) (cache_hits st) (cache_misses st)
             (page_faults st) (total_accesses st).
Definition incr_tlb_misses (st : statistics) : statistics :=
  Statistics (tlb_hits st) (tlb_misses st + 1) (cache_hits st) (cache_misses st)
             (page_faults st) (total_accesses st).
Definition incr_cache_hits (st : statistics) : statistics :=
  Statistics (tlb_hits st) (tlb_misses st) (cache_hits st + 1) (cache_misses st)
             (page_faults st) (total_accesses st).
Definition incr_cache_misses (st : statistics) : statistics :=
  Statistics (tlb_hits st) (tlb_misses st) (cache_hits st) (cache_misses st + 1)
             (page_faults st) (total_accesses st).
Definition incr_page_faults (st : statistics) : statistics :=
  Statistics (tlb_hits st) (tlb_misses st) (cache_hits st) (cache_misses st)
             (page_faults st + 1) (total_accesses st).
Definition incr_total_accesses (st : statistics) : statistics :=
  Statistics (tlb_hits st) (tlb_misses st) (cache_hits st) (cache_misses st)
             (page_faults st) (total_accesses st + 1).

Definition set_data (f : list Z → list Z) (c : cache_line) : cache_line :=
  CacheLine (tag c) (f (data c)) (valid c) (dirty c).
Definition set_tag (t : Z) (c : cache_line) : cache_line :=
  CacheLine t (data c) (valid c) (dirty c).
Definition set_valid (b : bool) (c : cache_line) : cache_line :=
  CacheLine (tag c) (data c) b (dirty c).
Definition set_dirty (b : bool) (c : cache_line) : cache_line :=
  CacheLine (tag c) (data c) (valid c) b.

(** ** Exceptions and the state monad *)

Inductive exn : Type := IndexError | KeyError | ValueError.

Inductive outcome (A : Type) : Type :=
| Ret (a : A)
| Raise (e : exn).
Arguments Ret {A} a.
Arguments Raise {A} e.

Definition M (A : Type) : Type := state → outcome A * state.

Definition ret {A} (a : A) : M A := λ s, (Ret a, s).
Definition raise {A} (e : exn) : M A := λ s, (Raise e, s).
Definition bind {A B} (m : M A) (k : A → M B) : M B :=
  λ s, match m s with
       | (Ret a, s') => k a s'
       | (Raise e, s') => (Raise e, s')
       end.
Definition gets {A} (f : state → A) : M A := λ s, (Ret (f s), s).
Definition modify (f : state → state) : M unit := λ s, (Ret tt, f s).
Definition lift {A} (o : outcome A) : M A := λ s, (o, s).

Declare Scope py_scope.
Delimit Scope py_scope with py.
Notation "x <- m ;; k" := (bind m (λ x, k))
  (at level 20, m at level 99, k at level 200, only parsing) : py_scope.
Notation "' p <- m ;; k" := (bind m (λ x, match x with p => k end))
  (at level 20, p pattern, m at level 99, k at level 200, only parsing) : py_scope.
Notation "m ;; k" := (bind m (λ _, k))
  (at level 100, k at level 200, only parsing, right associativity) : py_scope.
Local Open Scope py_scope.

(** [for i in l: body(i)] *)
Fixpoint for_each (l : list Z) (body : Z → M unit) : M unit :=
  match l with
  | [] => ret tt
  | i :: l' => body i ;; for_each l' body
  end.

(** [range(n)] *)
Fixpoint range_from (start : Z) (n : nat) : list Z :=
  match n with
  | O => []
  | S n' => start :: range_from (start + 1) n'
  end.

Definition range (n : Z) : list Z := range_from 0 (Z.to_nat n).

(** ** Python sequences and dicts *)

(** The position an index denotes in a sequence of length [len]: a
    negative index counts from the end, anything else outside is an
    [IndexError]. *)
Definition index_of (len i : Z) : option nat :=
  if decide (0 ≤ i < len) then Some (Z.to_nat i)
  else if decide (- len ≤ i < 0) then Some (Z.to_nat (len + i))
  else None.

Definition len {A} (l : list A) : Z := Z.of_nat (length l).

(** [l[i]] *)
Definition getitem {A} (l : list A) (i : Z) : outcome A :=
  match index_of (len l) i ≫= (l !!.) with
  | Some x => Ret x
  | None => Raise IndexError
  end.

(** [b[i] = v] on a [bytearray]: the value has to be in [range(256)]. *)
Definition bytearray_setitem (b : list Z) (i v : Z) : outcome (list Z) :=
  if decide (0 ≤ v < 256) then
    match index_of (len b) i with
    | Some n => Ret (<[n:=v]> b)
    | None => Raise IndexError
    end
  else Raise ValueError.

(** [d[k]] *)
Definition dict_getitem (d : gmap Z Z) (k : Z) : outcome Z :=
  match d !! k with
  | Some v => Ret v
  | None => Raise KeyError
  end.

(** [del d[k]] *)
Definition dict_delitem (d : gmap Z Z) (k : Z) : outcome (gmap Z Z) :=
  match d !! k with
  | Some _ => Ret (delete k d)
  | None => Raise KeyError
  end.

(** [k in d] *)
Definition contains (d : gmap Z Z) (k : Z) : bool :=
  match d !! k with Some _ => true | None => false end.

(** [len(d)] *)
Definition dict_len (d : gmap Z Z) : Z := Z.of_nat (size d).

(** [random.randint(a, b)], from one raw draw of the generator. *)
Definition randint (a b raw : Z) : Z := a + raw `mod` (b - a + 1).

(** [bytearray(n)] *)
Definition bytearray (n : Z) : list Z := replicate (Z.to_nat n) 0.

(** [q.popleft()] on a deque: the front element and the rest. *)
Definition popleft (q : list Z) : outcome (Z * list Z) :=
  match q with
  | x :: q' => Ret (x, q')
  | [] => Raise IndexError
  end.

(** ** Statements on the globals *)

(** [main_memory[i]] *)
Definition load_memory (i : Z) : M Z :=
  mem <- gets main_memory ;; lift (getitem mem i).

(** [main_memory[i] = v] *)
Definition store_memory (i v : Z) : M unit :=
  mem <- gets main_memory ;;
  mem' <- lift (bytearray_setitem mem i v) ;;
  modify (set_main_memory (λ _, mem')).

(** [cache_line = cache[index]] binds a reference to the dict stored in the
    list, not a copy; the reference is the position of the line, read and
    written through [read_line] and [write_line]. *)
Definition line_ref (index : Z) : M nat :=
  c <- gets cache ;;
  match index_of (len c) index with
  | Some n => ret n
  | None => raise IndexError
  end.

Definition read_line (r : nat) : M cache_line :=
  c <- gets cache ;;
  match c !! r with
  | Some line => ret line
  | None => raise IndexError
  end.

Definition write_line (r : nat) (f : cache_line → cache_line) : M unit :=
  modify (set_cache (alter f r)).

(** [cache_line['data'][i] = v] *)
Definition store_line_data (r : nat) (i v : Z) : M unit :=
  line <- read_line r ;;
  d <- lift (bytearray_setitem (data line) i v) ;;
  write_line r (set_data (λ _, d)).

(** The lines of the trace; each constructor stands for one f-string of
    [log_entries], with the numbers it prints. *)
Inductive log_entry : Type :=
| TLB_HIT (page_num frame_num : Z)
| TLB_MISS (page_num : Z)
| PAGE_TABLE_HIT (frame_num : Z)
| PAGE_FAULT (page_num frame_num : Z)
| TLB_UPDATE (page_num frame_num : Z)
| PHYSICAL_ADDRESS (physical_addr : Z)
| CACHE_HIT (value : Z)
| CACHE_MISS (value : Z).

(** The dict returned by [translate_address]. *)
Record translation : Type := Translation {
  virtual_addr : Z;
  physical_addr : Z;
  value : Z;
  page_num : Z;
  frame_num : Z;
  tlb_hit : bool;
  cache_hit : bool;
  log : list log_entry
}.

(** ** The simulator *)

Definition get_cache_components (physical_addr : Z) : Z * Z * Z :=
  let index := Z.land (physical_addr ≫ CACHE_OFFSET_BITS) (CACHE_SIZE - 1) in
  let tag := physical_addr ≫ (CACHE_OFFSET_BITS + CACHE_INDEX_BITS) in
  let offset := Z.land physical_addr (CACHE_LINE_SIZE - 1) in
  (tag, index, offset).

Definition handle_page_fault (page_num : Z) : M Z :=
  modify (set_stats incr_page_faults) ;;
  pt <- gets page_table ;;
  let frame_num := dict_len pt `mod` NUM_PAGES in
  let start_addr := frame_num * PAGE_SIZE in
  for_each (range PAGE_SIZE) (λ i,
    store_memory (start_addr + i) ((page_num + i) `mod` 256)) ;;
  modify (set_page_table <[page_num:=frame_num]>) ;;
  ret frame_num.

Definition update_tlb (page_num frame_num : Z) : M unit :=
  t <- gets tlb ;;
  if contains t page_num then ret tt
  else
    (if dict_len t >=? TLB_SIZE then
       q <- gets tlb_queue ;;
       '(oldest_page, q') <- lift (popleft q) ;;
       modify (set_tlb_queue (λ _, q')) ;;
       t <- gets tlb ;;
       t' <- lift (dict_delitem t oldest_page) ;;
       modify (set_tlb (λ _, t'))
     else ret tt) ;;
    modify (set_tlb <[page_num:=frame_num]>) ;;
    modify (set_tlb_queue (λ q, q ++ [page_num])).

Definition access_cache (physical_addr : Z) : M (Z * bool) :=
  let '(tag', index, offset) := get_cache_components physical_addr in
  cache_line <- line_ref index ;;
  line <- read_line cache_line ;;
  if valid line && bool_decide (tag line = tag') then
    modify (set_stats incr_cache_hits) ;;
    v <- lift (getitem (data line) offset) ;;
    ret (v, true)
  else
    modify (set_stats incr_cache_misses) ;;
    let block_start := Z.land physical_addr (Z.lnot (CACHE_LINE_SIZE - 1)) in
    for_each (range CACHE_LINE_SIZE) (λ i,
      v <- load_memory (block_start + i) ;;
      store_line_data cache_line i v) ;;
    write_line cache_line (set_tag tag') ;;
    write_line cache_line (set_valid true) ;;
    write_line cache_line (set_dirty false) ;;
    line <- read_line cache_line ;;
    v <- lift (getitem (data line) offset) ;;
    ret (v, false).

Definition translate_address (virtual_addr : Z) : M translation :=
  modify (set_stats incr_total_accesses) ;;
  let page_num := Z.land (virtual_addr ≫ 8) 255 in
  let offset := Z.land virtual_addr 255 in
  t <- gets tlb ;;
  '(frame_num, tlb_hit, log1) <-
    (if contains t page_num then
       frame_num <- lift (dict_getitem t page_num) ;;
       modify (set_stats incr_tlb_hits) ;;
       ret (frame_num, true, [TLB_HIT page_num frame_num])
     else
       modify (set_stats incr_tlb_misses) ;;
       pt <- gets page_table ;;
       '(frame_num, log2) <-
         (if contains pt page_num then
            frame_num <- lift (dict_getitem pt page_num) ;;
            ret (frame_num, [PAGE_TABLE_HIT frame_num])
          else
            frame_num <- handle_page_fault page_num ;;
            ret (frame_num, [PAGE_FAULT page_num frame_num])) ;;
       update_tlb page_num frame_num ;;
       ret (frame_num, false,
            [TLB_MISS page_num] ++ log2 ++ [TLB_UPDATE page_num frame_num])) ;;
  let physical_addr := frame_num * PAGE_SIZE + offset in
  '(value, cache_hit) <- access_cache physical_addr ;;
  ret (Translation virtual_addr physical_addr value page_num frame_num
         tlb_hit cache_hit
         (log1 ++ [PHYSICAL_ADDRESS physical_addr] ++
          [if cache_hit then CACHE_HIT value else CACHE_MISS value])).

(** The state the module starts in and [reset_simulator] rebuilds; [rng]
    gives the raw draw behind each call of [random.randint]. *)
Definition empty_line : cache_line :=
  CacheLine (-1) (bytearray CACHE_LINE_SIZE) false false.

Definition fresh_memory (rng : Z → Z) : list Z :=
  (λ i, randint 0 255 (rng i)) <$> range MEMORY_SIZE.

Definition fresh_cache : list cache_line :=
  (λ _, empty_line) <$> range CACHE_SIZE.

Definition initial_state (rng : Z → Z) : state :=
  State (fresh_memory rng) ∅ ∅ [] fresh_cache (Statistics 0 0 0 0 0 0).

Definition reset_simulator (rng : Z → Z) : M unit :=
  modify (λ _, initial_state rng).

(** Snapshot functions. [get_cache_snapshot] hands out the list itself. *)
Definition get_tlb_snapshot : M (gmap Z Z) := gets tlb.
Definition get_cache_snapshot : M (list cache_line) := gets cache.
Definition get_page_table_snapshot : M (gmap Z Z) := gets page_table.
Definition get_stats : M statistics := gets stats.

(** ** Runs *)

(** The state after a call, whatever its outcome. *)
Definition after {A} (m : M A) (s : state) : state := (m s).2.

(** A call from outside: a translation or a reset. *)
Inductive call : Type :=
| Translate (virtual_addr : Z)
| Reset (rng : Z → Z).

Definition do_call (c : call) : M unit :=
  match c with
  | Translate va => translate_address va ;; ret tt
  | Reset rng => reset_simulator rng
  end.

(** The state after a sequence of translations, and of calls. *)
Definition run (vas : list Z) (s : state) : state :=
  foldl (λ s va, after (translate_address va) s) s vas.

Definition run_calls (cs : list call) (s : state) : state :=
  foldl (λ s c, after (do_call c) s) s cs.

(** ** The window ([gui_viewer.py], class [MemorySimulatorGUI]) *)

(** What the window shows: a message box, the refreshed tabs, a line of
    the log pane. *)
Inductive gui_event : Type :=
| showerror (title message : string)
| update_display (result : option translation)
| log_message (message : string).

(** [MemorySimulatorGUI]: the simulator and the two variables behind the
    entry and the radio buttons. *)
Record gui : Type := Gui {
  simulator : state;
  addr_var : string;
  addr_format : string
}.

Definition gui_init (rng : Z → Z) : gui := Gui (initial_state rng) "" "hex".

Section builtins.

(** [str.strip], [str.lower] and [int(x, base)]; [None] stands for the
    [ValueError] of [int]. *)
Variable strip : string → string.
Variable lower : string → string.
Variable int_ : string → Z → option Z.

Definition process_address (g : gui) : outcome (list gui_event) * gui :=
  let address_str := strip (addr_var g) in
  if String.eqb address_str "" then
    (Ret [showerror "Error" "Please enter an address"], g)
  else
    let address_str :=
      if String.eqb (addr_format g) "hex" && negb (String.prefix "0x" address_str)
      then String.append "0x" address_str else address_str in
    match (if String.prefix "0x" (lower address_str)
           then int_ address_str 16 else int_ address_str 10) with
    | None => (Ret [showerror "Error" "Invalid address format"], g)
    | Some virtual_addr =>
        if (virtual_addr <? 0) || (virtual_addr >? 0xFFFF) then
          (Ret [showerror "Error" "Address out of range (0x0000-0xFFFF)"], g)
        else
          match translate_address virtual_addr (simulator g) with
          | (Ret result, s') =>
              (Ret [update_display (Some result)], Gui s' (addr_var g) (addr_format g))
          | (Raise ValueError, s') =>
              (Ret [showerror "Error" "Invalid address format"],
               Gui s' (addr_var g) (addr_format g))
          | (Raise e, s') => (Raise e, Gui s' (addr_var g) (addr_format g))
          end
    end.

(** [MemorySimulatorGUI.reset_simulator] *)
Definition gui_reset_simulator (rng : Z → Z) (g : gui) : outcome (list gui_event) * gui :=
  (Ret [update_display None; log_message "Simulator reset successfully!"],
   Gui (after (reset_simulator rng) (simulator g)) "" (addr_format g)).

(** What the user does: types in the entry, picks a radio button, presses
    one of the two buttons. *)
Inductive action : Type :=
| Type_in (text : string)
| Pick (hex : bool)
| Press_process
| Press_reset (rng : Z → Z).

Definition do_action (a : action) (g : gui) : gui :=
  match a with
  | Type_in text => Gui (simulator g) text (addr_format g)
  | Pick hex => Gui (simulator g) (addr_var g) (if hex then "hex" else "decimal")
  | Press_process => (process_address g).2
  | Press_reset rng => (gui_reset_simulator rng g).2
  end.

Definition session (actions : list action) (g : gui) : gui :=
  foldl (λ g a, do_action a g) g actions.

End builtins.

(** * Vocabulary of the properties *)

(** The slice [l[start : start + n]]. *)
Definition slice {A} (l : list A) (start n : Z) : list A :=
  take (Z.to_nat n) (drop (Z.to_nat start) l).

(** The bytes a page is made of. *)
Definition page_pattern (page_num : Z) : list Z :=
  (λ i, (page_num + i) `mod` 256) <$> seqZ 0 PAGE_SIZE.

Definition is_byte (b : Z) : Prop := 0 ≤ b < 256.

(** The line an address selects, as a position of the list [cache]. *)
Definition line_of (physical_addr : Z) : nat :=
  Z.to_nat (get_cache_components physical_addr).1.2.

Definition tag_of (physical_addr : Z) : Z :=
  (get_cache_components physical_addr).1.1.

Definition offset_of (physical_addr : Z) : Z :=
  (get_cache_components physical_addr).2.

(** The start of the block an address lies in. *)
Definition block_start (physical_addr : Z) : Z :=
  Z.land physical_addr (Z.lnot (CACHE_LINE_SIZE - 1)).

(** The block of memory that the line at position [n] caches when its
    tag is [t]. *)
Definition line_block (t : Z) (n : nat) : Z :=
  (t ≪ (CACHE_OFFSET_BITS + CACHE_INDEX_BITS)) + (Z.of_nat n ≪ CACHE_OFFSET_BITS).

(** The memory is a [bytearray] of [MEMORY_SIZE] bytes. *)
Record memory_ok (mem : list Z) : Prop := {
  memory_len : len mem = MEMORY_SIZE;
  memory_bytes : Forall is_byte mem
}.

(** Pages are 8-bit numbers; the frames handed out so far are
    [0 .. len(page_table) - 1], one per page, and each still holds the
    bytes of its page. *)
Record page_table_ok (mem : list Z) (pt : gmap Z Z) : Prop := {
  pages_range : ∀ p f, pt !! p = Some f → 0 ≤ p < 256;
  frames_range : ∀ p f, pt !! p = Some f → 0 ≤ f < dict_len pt;
  frames_distinct : ∀ p p' f, pt !! p = Some f → pt !! p' = Some f → p = p';
  frames_content : ∀ p f, pt !! p = Some f →
    slice mem (f * PAGE_SIZE) PAGE_SIZE = page_pattern p
}.

(** The TLB is a part of the page table, of at most [TLB_SIZE] entries,
    and the queue lists its keys, each once. *)
Record tlb_ok (pt t : gmap Z Z) (q : list Z) : Prop := {
  tlb_sub : t ⊆ pt;
  tlb_queue_keys : dom t = list_to_set q;
  tlb_queue_nodup : NoDup q;
  tlb_capacity : dict_len t ≤ TLB_SIZE
}.

(** There are [CACHE_SIZE] lines of [CACHE_LINE_SIZE] bytes; a valid line
    is a copy of its block, and that block lies in a frame already handed
    out. *)
Record cache_ok (mem : list Z) (pt : gmap Z Z) (c : list cache_line) : Prop := {
  cache_len : len c = CACHE_SIZE;
  cache_line_len : Forall (λ line, len (data line) = CACHE_LINE_SIZE) c;
  cache_coherent : ∀ n line, c !! n = Some line → valid line = true →
    0 ≤ line_block (tag line) n ∧
    line_block (tag line) n + CACHE_LINE_SIZE ≤ dict_len pt * PAGE_SIZE ∧
    data line = slice mem (line_block (tag line) n) CACHE_LINE_SIZE
}.

(** Every access counts as one TLB hit or miss and one cache hit or miss. *)
Record counters_ok (st : statistics) : Prop := {
  tlb_counters : tlb_hits st + tlb_misses st = total_accesses st;
  cache_counters : cache_hits st + cache_misses st = total_accesses st
}.

(** What holds of every state the simulator reaches. *)
Record inv (s : state) : Prop := {
  inv_memory : memory_ok (main_memory s);
  inv_page_table : page_table_ok (main_memory s) (page_table s);
  inv_tlb : tlb_ok (page_table s) (tlb s) (tlb_queue s);
  inv_cache : cache_ok (main_memory s) (page_table s) (cache s);
  inv_counters : counters_ok (stats s)
}.

Definition incr_if (b : bool) (n : Z) : Z := if b then n + 1 else n.

(** Only the counters move, and only upwards. *)
Definition counters_le (s s' : state) : Prop :=
  tlb_hits (stats s) ≤ tlb_hits (stats s') ∧
  tlb_misses (stats s) ≤ tlb_misses (stats s') ∧
  cache_hits (stats s) ≤ cache_hits (stats s') ∧
  cache_misses (stats s) ≤ cache_misses (stats s') ∧
  page_faults (stats s) ≤ page_faults (stats s') ∧
  total_accesses (stats s) ≤ total_accesses (stats s').

(** Nothing but the counters and the cache line at position [n] changes. *)
Definition only_line (n : nat) (s s' : state) : Prop :=
  main_memory s' = main_memory s ∧
  page_table s' = page_table s ∧
  tlb s' = tlb s ∧
  tlb_queue s' = tlb_queue s ∧
  length (cache s') = length (cache s) ∧
  ∀ j, j ≠ n → cache s' !! j = cache s !! j.

(** [m] leaves the state within [R] of where it started, whatever its
    outcome. *)
Definition preserves (R : relation state) {A} (m : M A) : Prop :=
  ∀ s, R s (m s).2.

(** [True] when an access of the address hits: its line is valid and has
    its tag. *)
Definition is_cached (c : list cache_line) (physical_addr : Z) : bool :=
  match c !! line_of physical_addr with
  | Some line => valid line && bool_decide (tag line = tag_of physical_addr)
  | None => false
  end.

(** The trace that goes with a record, for a page that was resident or
    not before the call. *)
Definition trace_of (r : translation) (resident : bool) : list log_entry :=
  (if tlb_hit r then [TLB_HIT (page_num r) (frame_num r)]
   else [TLB_MISS (page_num r);
         if resident then PAGE_TABLE_HIT (frame_num r)
         else PAGE_FAULT (page_num r) (frame_num r);
         TLB_UPDATE (page_num r) (frame_num r)]) ++
  [PHYSICAL_ADDRESS (physical_addr r);
   if cache_hit r then CACHE_HIT (value r) else CACHE_MISS (value r)].

(** The record of a translation with another [virtual_addr]. *)
Definition with_virtual_addr (va : Z) (r : translation) : translation :=
  Translation va (physical_addr r) (value r) (page_num r) (frame_num r)
              (tlb_hit r) (cache_hit r) (log r).

(** The result of a call, changed by [g] when the call returns. *)
Definition map_outcome {A B} (g : A → B) (x : outcome A * state) : outcome B * state :=
  (match x.1 with Ret a => Ret (g a) | Raise e => Raise e end, x.2).

(** A page table with the 256 pages [0 .. 255] in the frames [0 .. 255]. *)
Definition full_page_table : gmap Z Z :=
  list_to_map ((λ p, (p, p)) <$> range NUM_PAGES).

(** A TLB of 16 pages, [0 .. 15], each in the frame of its number. *)
Definition full_tlb : gmap Z Z := list_to_map ((λ p, (p, p)) <$> range TLB_SIZE).

(** * Properties *)

(** ** Arithmetic of the configuration *)

Lemma NUM_PAGES_eq : NUM_PAGES = 256.
Proof. reflexivity. Qed.

Lemma CACHE_OFFSET_BITS_eq : CACHE_OFFSET_BITS = 3.
Proof. reflexivity. Qed.

Lemma CACHE_INDEX_BITS_eq : CACHE_INDEX_BITS = 6.
Proof. reflexivity. Qed.

Lemma range_from_seqZ start n : range_from start n = seqZ start (Z.of_nat n).
Proof.
  revert start. induction n as [|n IH]; intros start.
  - by rewrite seqZ_nil.
  - rewrite seqZ_cons by lia. cbn [range_from]. rewrite IH.
    do 2 f_equal; lia.
Qed.

Lemma range_seqZ n : range n = seqZ 0 n.
Proof.
  unfold range. rewrite range_from_seqZ.
  destruct (decide (0 ≤ n)).
  - by rewrite Z2Nat.id.
  - rewrite Z2Nat.nonpos by lia. by rewrite !seqZ_nil by lia.
Qed.

Example get_cache_components_0x1234 : get_cache_components 0x1234 = (9, 6, 4).
Proof. reflexivity. Qed.

Example index_of_last : index_of 8 (-1) = Some 7%nat.
Proof. reflexivity. Qed.

Example index_of_outside : index_of 8 8 = None ∧ index_of 8 (-9) = None.
Proof. split; reflexivity. Qed.

(** The three fields of a physical address, as quotients and remainders. *)
Lemma get_cache_components_eq pa :
  get_cache_components pa = (pa `div` 512, (pa `div` 8) `mod` 64, pa `mod` 8).
Proof.
  unfold get_cache_components.
  rewrite CACHE_OFFSET_BITS_eq, CACHE_INDEX_BITS_eq.
  change (CACHE_SIZE - 1) with (Z.ones 6).
  change (CACHE_LINE_SIZE - 1) with (Z.ones 3).
  rewrite !Z.land_ones, !Z.shiftr_div_pow2 by lia.
  reflexivity.
Qed.

Lemma block_start_eq pa :
  Z.land pa (Z.lnot (CACHE_LINE_SIZE - 1)) = pa - pa `mod` 8.
Proof.
  change (CACHE_LINE_SIZE - 1) with (Z.ones 3).
  rewrite <- Z.ldiff_land, Z.ldiff_ones_r by lia.
  rewrite Z.shiftl_mul_pow2, Z.shiftr_div_pow2 by lia.
  change (2 ^ 3) with 8. pose proof (Z.div_mod pa 8). lia.
Qed.

Lemma page_num_eq va : Z.land (va ≫ 8) 255 = (va `div` 256) `mod` 256.
Proof.
  change 255 with (Z.ones 8).
  by rewrite Z.land_ones, Z.shiftr_div_pow2 by lia.
Qed.

Lemma page_offset_eq va : Z.land va 255 = va `mod` 256.
Proof. change 255 with (Z.ones 8). by rewrite Z.land_ones by lia. Qed.

(** ** Sequences *)

Lemma index_of_inside n i : 0 ≤ i < n → index_of n i = Some (Z.to_nat i).
Proof. intros. unfold index_of. by rewrite decide_True. Qed.

Lemma getitem_inside {A} (l : list A) i x :
  0 ≤ i → l !! Z.to_nat i = Some x → getitem l i = Ret x.
Proof.
  intros Hi Hx. unfold getitem.
  rewrite index_of_inside; [simpl; by rewrite Hx|].
  apply lookup_lt_Some in Hx. unfold len. lia.
Qed.

Lemma bytearray_setitem_inside b i v :
  0 ≤ v < 256 → 0 ≤ i < len b →
  bytearray_setitem b i v = Ret (<[Z.to_nat i:=v]> b).
Proof.
  intros. unfold bytearray_setitem.
  by rewrite decide_True, index_of_inside.
Qed.

Lemma length_slice {A} (l : list A) start n :
  0 ≤ start → 0 ≤ n → start + n ≤ len l → len (slice l start n) = n.
Proof.
  unfold slice, len. intros. rewrite length_take, length_drop. lia.
Qed.

Lemma lookup_slice {A} (l : list A) start n (i : nat) :
  0 ≤ start → Z.of_nat i < n →
  slice l start n !! i = l !! (Z.to_nat start + i)%nat.
Proof.
  intros. unfold slice. rewrite lookup_take_lt by lia. by rewrite lookup_drop.
Qed.

(** ** Loops *)

Lemma bind_Ret {A B} (m : M A) (k : A → M B) s a s' :
  m s = (Ret a, s') → bind m k s = k a s'.
Proof. intros H. unfold bind. by rewrite H. Qed.

Lemma bind_modify {B} f (k : unit → M B) s : bind (modify f) k s = k tt (f s).
Proof. reflexivity. Qed.

Lemma bind_gets {A B} (f : state → A) (k : A → M B) s : bind (gets f) k s = k (f s) s.
Proof. reflexivity. Qed.

Lemma bind_ret {A B} (a : A) (k : A → M B) s : bind (ret a) k s = k a s.
Proof. reflexivity. Qed.

Lemma bind_lift_Ret {A B} (a : A) (k : A → M B) s : bind (lift (Ret a)) k s = k a s.
Proof. reflexivity. Qed.

Lemma bind_lift_Raise {A B} e (k : A → M B) s : bind (lift (Raise e)) k s = (Raise e, s).
Proof. reflexivity. Qed.

Lemma bind_raise {A B} e (k : A → M B) s : bind (raise e) k s = (Raise e, s).
Proof. reflexivity. Qed.

Lemma bind_assoc {A B C} (m : M A) (k1 : A → M B) (k2 : B → M C) s :
  bind (bind m k1) k2 s = bind m (λ a, bind (k1 a) k2) s.
Proof. unfold bind. by destruct (m s) as [[a|e] s']. Qed.

Ltac sstate :=
  unfold set_main_memory, set_page_table, set_tlb, set_tlb_queue, set_cache, set_stats;
  cbn [main_memory page_table tlb tlb_queue cache stats].

Ltac msimpl :=
  repeat first
    [ rewrite bind_assoc | rewrite bind_modify | rewrite bind_gets
    | rewrite bind_ret | rewrite bind_lift_Ret | progress sstate ].

Lemma for_each_app l1 l2 body s :
  for_each (l1 ++ l2) body s =
  match for_each l1 body s with
  | (Ret _, s') => for_each l2 body s'
  | (Raise e, s') => (Raise e, s')
  end.
Proof.
  revert s. induction l1 as [|i l1 IH]; intros s; [done|].
  cbn [for_each app]. unfold bind.
  destruct (body i s) as [[[]|e] s1]; [apply IH|done].
Qed.

(** ** The page-fault fill loop *)

Lemma store_memory_eq mem pt t q c st i v :
  is_byte v → 0 ≤ i < len mem →
  store_memory i v (State mem pt t q c st) =
  (Ret tt, State (<[Z.to_nat i:=v]> mem) pt t q c st).
Proof.
  intros Hv Hi. unfold store_memory, bind, gets, lift, modify. cbn.
  by rewrite bytearray_setitem_inside.
Qed.

Lemma load_memory_eq mem pt t q c st i v :
  0 ≤ i → mem !! Z.to_nat i = Some v →
  load_memory i (State mem pt t q c st) = (Ret v, State mem pt t q c st).
Proof.
  intros Hi Hv. unfold load_memory, bind, gets, lift. cbn.
  by rewrite (getitem_inside _ _ v).
Qed.

Lemma store_loop_eq (k : nat) mem pt t q c st start p :
  0 ≤ start → start + Z.of_nat k ≤ len mem →
  for_each (seqZ 0 (Z.of_nat k))
    (λ i, store_memory (start + i) ((p + i) `mod` 256)) (State mem pt t q c st) =
  (Ret tt,
   State (list_inserts (Z.to_nat start)
            ((λ i, (p + i) `mod` 256) <$> seqZ 0 (Z.of_nat k)) mem)
         pt t q c st).
Proof.
  intros Hstart. induction k as [|k IH]; intros Hk.
  - by rewrite seqZ_nil.
  - rewrite seqZ_S, for_each_app, IH by lia.
    cbn [for_each]. unfold bind.
    rewrite store_memory_eq; cycle 1.
    { unfold is_byte. apply Z.mod_pos_bound. lia. }
    { unfold len in *. rewrite length_inserts. lia. }
    cbn. rewrite fmap_app, list_inserts_app_l. cbn [list_inserts fmap list_fmap].
    rewrite length_fmap, length_seqZ, Nat2Z.id.
    unfold ret. replace (Z.to_nat (start + (0 + Z.of_nat k))) with (k + Z.to_nat start)%nat by lia.
    reflexivity.
Qed.

Lemma list_inserts_bytes start k (mem : list Z) :
  Forall is_byte k → Forall is_byte mem →
  Forall is_byte (list_inserts start k mem).
Proof.
  intros Hk. revert start. induction Hk as [|x k Hx Hk IH]; intros start Hmem; [done|].
  cbn [list_inserts]. apply Forall_insert; auto.
Qed.

Lemma page_pattern_bytes p : Forall is_byte (page_pattern p).
Proof.
  unfold page_pattern. apply Forall_fmap, Forall_forall. intros i _.
  unfold is_byte. cbn. apply Z.mod_pos_bound. lia.
Qed.

Lemma length_page_pattern p : length (page_pattern p) = 256%nat.
Proof. unfold page_pattern. by rewrite length_fmap, length_seqZ. Qed.

(** [handle_page_fault] never fails on a memory of [MEMORY_SIZE] bytes. *)
Lemma handle_page_fault_eq mem pt t q c st p :
  len mem = MEMORY_SIZE →
  let f := dict_len pt `mod` NUM_PAGES in
  handle_page_fault p (State mem pt t q c st) =
  (Ret f,
   State (list_inserts (Z.to_nat (f * PAGE_SIZE)) (page_pattern p) mem)
         (<[p:=f]> pt) t q c (incr_page_faults st)).
Proof.
  intros Hmem f. unfold handle_page_fault. msimpl.
  fold f. rewrite range_seqZ.
  assert (0 ≤ f < 256) as Hf by (apply Z.mod_pos_bound; reflexivity).
  change PAGE_SIZE with (Z.of_nat 256) at 1.
  erewrite bind_Ret; cycle 1.
  { apply store_loop_eq.
    - unfold PAGE_SIZE. lia.
    - rewrite Hmem. unfold PAGE_SIZE, MEMORY_SIZE. lia. }
  msimpl. reflexivity.
Qed.

(** ** [update_tlb], case by case *)

Lemma contains_Some d k v : d !! k = Some v → contains d k = true.
Proof. intros H. unfold contains. by rewrite H. Qed.

Lemma contains_None d k : d !! k = None → contains d k = false.
Proof. intros H. unfold contains. by rewrite H. Qed.

Lemma update_tlb_present mem pt t q c st p f f0 :
  t !! p = Some f0 →
  update_tlb p f (State mem pt t q c st) = (Ret tt, State mem pt t q c st).
Proof.
  intros Hp. unfold update_tlb. msimpl. by rewrite (contains_Some _ _ f0).
Qed.

Lemma update_tlb_room mem pt t q c st p f :
  t !! p = None → dict_len t < TLB_SIZE →
  update_tlb p f (State mem pt t q c st) =
  (Ret tt, State mem pt (<[p:=f]> t) (q ++ [p]) c st).
Proof.
  intros Hp Hsize. unfold update_tlb. msimpl. rewrite contains_None by done.
  destruct (dict_len t >=? TLB_SIZE) eqn:Hge; [apply Z.geb_le in Hge; lia|].
  by msimpl.
Qed.

Lemma update_tlb_evict mem pt t q c st p f oldest q' f0 :
  t !! p = None → TLB_SIZE ≤ dict_len t →
  q = oldest :: q' → t !! oldest = Some f0 →
  update_tlb p f (State mem pt t q c st) =
  (Ret tt, State mem pt (<[p:=f]> (delete oldest t)) (q' ++ [p]) c st).
Proof.
  intros Hp Hsize -> Ho. unfold update_tlb. msimpl. rewrite contains_None by done.
  destruct (dict_len t >=? TLB_SIZE) eqn:Hge; cycle 1.
  { rewrite <- Z.geb_le in Hsize. congruence. }
  msimpl. cbn [popleft]. msimpl. unfold dict_delitem. rewrite Ho. by msimpl.
Qed.

(** ** The cache fill loop *)

Lemma read_line_eq mem pt t q c st r line :
  c !! r = Some line →
  read_line r (State mem pt t q c st) = (Ret line, State mem pt t q c st).
Proof. intros H. unfold read_line. msimpl. by rewrite H. Qed.

Lemma write_line_eq mem pt t q c st r f line :
  c !! r = Some line →
  write_line r f (State mem pt t q c st) =
  (Ret tt, State mem pt t q (<[r:=f line]> c) st).
Proof.
  intros H. unfold write_line, modify. sstate. do 2 f_equal.
  apply list_eq. intros j. destruct (decide (j = r)) as [->|].
  - rewrite list_lookup_alter_eq, H, list_lookup_insert_eq; [done|].
    by eapply lookup_lt_Some.
  - by rewrite list_lookup_alter_ne, list_lookup_insert_ne.
Qed.

Lemma fill_loop_eq (k : nat) mem pt t q c st r line b :
  c !! r = Some line → len (data line) = CACHE_LINE_SIZE →
  Forall is_byte mem → 0 ≤ b → b + Z.of_nat k ≤ len mem →
  Z.of_nat k ≤ CACHE_LINE_SIZE →
  for_each (seqZ 0 (Z.of_nat k))
    (λ i, v <- load_memory (b + i) ;; store_line_data r i v)
    (State mem pt t q c st) =
  (Ret tt,
   State mem pt t q
     (<[r:=set_data (λ _, list_inserts 0 (slice mem b (Z.of_nat k)) (data line)) line]> c)
     st).
Proof.
  intros Hr Hlen Hbytes Hb. induction k as [|k IH]; intros Hk Hk8.
  - rewrite seqZ_nil by done. cbn. unfold ret. do 2 f_equal.
    rewrite list_insert_id; [done|]. by destruct line.
  - rewrite seqZ_S, for_each_app, IH by lia. clear IH.
    cbn [for_each]. rewrite Z.add_0_l.
    destruct (lookup_lt_is_Some_2 mem (Z.to_nat (b + Z.of_nat k))) as [v Hv].
    { unfold len in Hk. lia. }
    assert (is_byte v) as Hbyte by (by eapply Forall_lookup_1).
    assert (r < length c)%nat as Hrlt by (by eapply lookup_lt_Some).
    erewrite bind_Ret; cycle 1.
    { erewrite bind_Ret; [|apply load_memory_eq; [lia|done]].
      unfold store_line_data.
      erewrite bind_Ret; [|apply read_line_eq, list_lookup_insert_eq, Hrlt].
      cbn [data set_data].
      rewrite bytearray_setitem_inside; cycle 1.
      { done. }
      { unfold len in *. rewrite length_inserts. lia. }
      msimpl. apply write_line_eq, list_lookup_insert_eq, Hrlt. }
    unfold ret. rewrite list_insert_insert_eq. do 3 f_equal.
    unfold set_data; cbn [tag data valid dirty]. f_equal.
    unfold slice. rewrite Nat2Z.id.
    replace (Z.to_nat (Z.of_nat (S k))) with (S k) by lia.
    rewrite (take_S_r _ _ v); cycle 1.
    { rewrite lookup_drop, <- Hv. f_equal. lia. }
    rewrite list_inserts_app_l. cbn [list_inserts].
    rewrite length_take, length_drop. f_equal.
    unfold len in Hk. lia.
Qed.

(** ** [access_cache], hit and miss *)

Lemma line_ref_eq mem pt t q c st i line :
  0 ≤ i → c !! Z.to_nat i = Some line →
  line_ref i (State mem pt t q c st) = (Ret (Z.to_nat i), State mem pt t q c st).
Proof.
  intros Hi Hl. unfold line_ref. msimpl.
  rewrite index_of_inside; [done|].
  apply lookup_lt_Some in Hl. unfold len. lia.
Qed.

Lemma list_inserts_0_full {A} (k l : list A) :
  length k = length l → list_inserts 0 k l = k.
Proof.
  intros H. rewrite <- (app_nil_r l), list_inserts_0_r by done.
  apply app_nil_r.
Qed.

Lemma line_of_eq pa : line_of pa = Z.to_nat ((pa `div` 8) `mod` 64).
Proof. unfold line_of. by rewrite get_cache_components_eq. Qed.

Lemma tag_of_eq pa : tag_of pa = pa `div` 512.
Proof. unfold tag_of. by rewrite get_cache_components_eq. Qed.

Lemma offset_of_eq pa : offset_of pa = pa `mod` 8.
Proof. unfold offset_of. by rewrite get_cache_components_eq. Qed.

Lemma access_cache_hit mem pt t q c st pa line v :
  c !! line_of pa = Some line →
  valid line = true → tag line = tag_of pa →
  data line !! Z.to_nat (offset_of pa) = Some v →
  access_cache pa (State mem pt t q c st) =
  (Ret (v, true), State mem pt t q c (incr_cache_hits st)).
Proof.
  rewrite line_of_eq, tag_of_eq, offset_of_eq. intros Hl Hvalid Htag Hv.
  unfold access_cache. rewrite get_cache_components_eq.
  assert (0 ≤ (pa `div` 8) `mod` 64 < 64) by (apply Z.mod_pos_bound; lia).
  assert (0 ≤ pa `mod` 8 < 8) by (apply Z.mod_pos_bound; lia).
  erewrite bind_Ret; [|by eapply line_ref_eq; [lia|]].
  erewrite bind_Ret; [|by apply read_line_eq].
  rewrite Hvalid, Htag, bool_decide_eq_true_2 by done. cbn [andb].
  msimpl. rewrite (getitem_inside _ _ v) by (done || lia). by msimpl.
Qed.

Lemma access_cache_miss mem pt t q c st pa line :
  len mem = MEMORY_SIZE → Forall is_byte mem → 0 ≤ pa < MEMORY_SIZE →
  c !! line_of pa = Some line → len (data line) = CACHE_LINE_SIZE →
  valid line && bool_decide (tag line = tag_of pa) = false →
  ∃ v, slice mem (block_start pa) CACHE_LINE_SIZE !! Z.to_nat (offset_of pa) = Some v ∧
  access_cache pa (State mem pt t q c st) =
  (Ret (v, false),
   State mem pt t q
     (<[line_of pa:=CacheLine (tag_of pa) (slice mem (block_start pa) CACHE_LINE_SIZE)
                      true false]> c)
     (incr_cache_misses st)).
Proof.
  unfold block_start. rewrite line_of_eq, tag_of_eq, offset_of_eq, block_start_eq.
  intros Hmem Hbytes Hpa Hl Hlen Hmiss.
  assert (0 ≤ (pa `div` 8) `mod` 64 < 64) by (apply Z.mod_pos_bound; lia).
  assert (0 ≤ pa `mod` 8 < 8) as Hoff by (apply Z.mod_pos_bound; lia).
  assert (pa - pa `mod` 8 + 8 ≤ MEMORY_SIZE) as Hblock.
  { unfold MEMORY_SIZE in *. clear -Hpa. Z.div_mod_to_equations. lia. }
  assert (0 ≤ pa - pa `mod` 8) as Hb0.
  { clear -Hpa. Z.div_mod_to_equations. lia. }
  set (b := pa - pa `mod` 8) in *.
  assert (len (slice mem b CACHE_LINE_SIZE) = CACHE_LINE_SIZE) as Hslice.
  { apply length_slice; rewrite ?Hmem; unfold CACHE_LINE_SIZE; lia. }
  destruct (lookup_lt_is_Some_2 (slice mem b CACHE_LINE_SIZE) (Z.to_nat (pa `mod` 8)))
    as [v Hv].
  { unfold len, CACHE_LINE_SIZE in *. lia. }
  exists v. split; [done|].
  assert (line_of pa < length c)%nat as Hrlt.
  { rewrite line_of_eq. by eapply lookup_lt_Some. }
  rewrite line_of_eq in Hrlt.
  unfold access_cache. rewrite get_cache_components_eq.
  erewrite bind_Ret; [|by eapply line_ref_eq; [lia|]].
  erewrite bind_Ret; [|by apply read_line_eq].
  rewrite Hmiss. msimpl. rewrite block_start_eq. fold b.
  rewrite range_seqZ. change CACHE_LINE_SIZE with (Z.of_nat 8) at 1.
  erewrite bind_Ret; cycle 1.
  { apply fill_loop_eq;
      [done|done|done|lia|rewrite Hmem; lia|unfold CACHE_LINE_SIZE; lia]. }
  change (Z.of_nat 8) with CACHE_LINE_SIZE.
  rewrite list_inserts_0_full; cycle 1.
  { unfold len in *. lia. }
  erewrite bind_Ret; [|apply write_line_eq, list_lookup_insert_eq, Hrlt].
  rewrite list_insert_insert_eq.
  erewrite bind_Ret; [|apply write_line_eq, list_lookup_insert_eq, Hrlt].
  rewrite list_insert_insert_eq.
  erewrite bind_Ret; [|apply write_line_eq, list_lookup_insert_eq, Hrlt].
  rewrite list_insert_insert_eq.
  erewrite bind_Ret; [|apply read_line_eq, list_lookup_insert_eq, Hrlt].
  cbn [set_data set_tag set_valid set_dirty tag data valid dirty].
  rewrite (getitem_inside _ _ v) by (done || lia). by msimpl.
Qed.

(** ** Slices of an overwritten memory *)

Lemma slice_inserts_below {A} (l k : list A) (i : nat) start n :
  0 ≤ start → start + n ≤ Z.of_nat i →
  slice (list_inserts i k l) start n = slice l start n.
Proof.
  intros Hstart Hn. unfold slice. apply list_eq. intros j.
  destruct (decide (j < Z.to_nat n)%nat).
  - rewrite !lookup_take_lt, !lookup_drop by done.
    apply list_lookup_inserts_lt. lia.
  - by rewrite !lookup_take_ge by lia.
Qed.

Lemma slice_inserts_above {A} (l k : list A) (i : nat) start n :
  Z.of_nat (i + length k) ≤ start →
  slice (list_inserts i k l) start n = slice l start n.
Proof.
  intros Hstart. unfold slice. apply list_eq. intros j.
  destruct (decide (j < Z.to_nat n)%nat).
  - rewrite !lookup_take_lt, !lookup_drop by done.
    apply list_lookup_inserts_ge. lia.
  - by rewrite !lookup_take_ge by lia.
Qed.

Lemma slice_inserts_at {A} (l k : list A) start n :
  0 ≤ start → n = Z.of_nat (length k) → start + n ≤ len l →
  slice (list_inserts (Z.to_nat start) k l) start n = k.
Proof.
  intros Hstart -> Hk. unfold slice, len in *. rewrite Nat2Z.id.
  apply list_eq. intros j.
  destruct (decide (j < length k)%nat).
  - rewrite lookup_take_lt, lookup_drop by done.
    rewrite list_lookup_inserts by lia. f_equal. lia.
  - rewrite lookup_take_ge by lia. symmetry. apply lookup_ge_None. lia.
Qed.

(** ** The invariant of the reachable states *)

Lemma line_block_eq t n : line_block t n = t * 512 + Z.of_nat n * 8.
Proof.
  unfold line_block. rewrite CACHE_OFFSET_BITS_eq, CACHE_INDEX_BITS_eq.
  by rewrite !Z.shiftl_mul_pow2 by lia.
Qed.

Lemma line_block_of pa : line_block (tag_of pa) (line_of pa) = block_start pa.
Proof.
  unfold block_start.
  rewrite line_block_eq, tag_of_eq, line_of_eq, block_start_eq.
  rewrite Z2Nat.id by (apply Z.mod_pos_bound; lia).
  Z.div_mod_to_equations. lia.
Qed.

(** At most 256 pages fit in the table, as pages are 8-bit numbers. *)
Lemma page_table_size (pt : gmap Z Z) :
  (∀ p f, pt !! p = Some f → 0 ≤ p < 256) → dict_len pt ≤ 256.
Proof.
  intros Hpages. unfold dict_len. rewrite <- (size_dom (D:=gset Z)).
  assert (dom pt ⊆ (list_to_set (seqZ 0 256) : gset Z)) as Hsub.
  { intros p [f Hp]%elem_of_dom. apply elem_of_list_to_set, elem_of_seqZ.
    apply Hpages in Hp. lia. }
  apply subseteq_size in Hsub.
  rewrite size_list_to_set, length_seqZ in Hsub by apply NoDup_seqZ. lia.
Qed.

Lemma page_table_room (pt : gmap Z Z) p :
  (∀ p f, pt !! p = Some f → 0 ≤ p < 256) →
  pt !! p = None → 0 ≤ p < 256 → dict_len pt < 256.
Proof.
  intros Hpages Hp Hrange.
  pose proof (page_table_size (<[p:=0]> pt)) as Hsize.
  unfold dict_len in *. rewrite map_size_insert_None in Hsize by done.
  enough (Z.of_nat (S (size pt)) ≤ 256) by lia.
  apply Hsize. intros p' f [[-> _]|[_ Hp']]%lookup_insert_Some; [done|eauto].
Qed.

(** ** A page fault keeps the invariant *)

Lemma fault_frame pt p :
  (∀ p f, pt !! p = Some f → 0 ≤ p < 256) →
  pt !! p = None → 0 ≤ p < 256 →
  dict_len pt `mod` NUM_PAGES = dict_len pt ∧ 0 ≤ dict_len pt < 256.
Proof.
  intros Hpages Hp Hrange.
  pose proof (page_table_room pt p Hpages Hp Hrange).
  assert (0 ≤ dict_len pt) by (unfold dict_len; lia).
  rewrite NUM_PAGES_eq, Z.mod_small by lia. lia.
Qed.

Lemma fault_memory_ok mem p (i : nat) :
  memory_ok mem → memory_ok (list_inserts i (page_pattern p) mem).
Proof.
  intros [Hlen Hbytes]. split.
  - unfold len in *. by rewrite length_inserts.
  - apply list_inserts_bytes; [apply page_pattern_bytes|done].
Qed.

Lemma fault_page_table_ok mem pt p :
  memory_ok mem → page_table_ok mem pt →
  pt !! p = None → 0 ≤ p < 256 →
  page_table_ok
    (list_inserts (Z.to_nat (dict_len pt * PAGE_SIZE)) (page_pattern p) mem)
    (<[p:=dict_len pt]> pt).
Proof.
  intros [Hlen Hbytes] [Hpages Hframes Hdistinct Hcontent] Hp Hrange.
  pose proof (page_table_room pt p Hpages Hp Hrange) as Hroom.
  assert (dict_len (<[p:=dict_len pt]> pt) = dict_len pt + 1) as Hsize.
  { unfold dict_len. rewrite map_size_insert_None by done. lia. }
  assert (0 ≤ dict_len pt) as Hpos by (unfold dict_len; lia).
  split.
  - intros p' f [[<- _]|[_ Hp']]%lookup_insert_Some; eauto.
  - intros p' f [[_ <-]|[_ Hp']]%lookup_insert_Some; rewrite Hsize; [lia|].
    apply Hframes in Hp'. lia.
  - intros p1 p2 f [[<- <-]|[_ H1]]%lookup_insert_Some
                   [[<- Hf]|[_ H2]]%lookup_insert_Some; try done.
    + apply Hframes in H2. lia.
    + apply Hframes in H1. lia.
    + eauto.
  - intros p' f [[<- <-]|[_ Hp']]%lookup_insert_Some.
    + apply slice_inserts_at.
      * unfold PAGE_SIZE. lia.
      * by rewrite length_page_pattern.
      * rewrite Hlen. unfold MEMORY_SIZE, PAGE_SIZE. lia.
    + rewrite slice_inserts_below; [by apply Hcontent| |].
      * apply Hframes in Hp'. unfold PAGE_SIZE. lia.
      * apply Hframes in Hp'. unfold PAGE_SIZE. lia.
Qed.

Lemma fault_cache_ok mem pt c p :
  cache_ok mem pt c → pt !! p = None →
  cache_ok
    (list_inserts (Z.to_nat (dict_len pt * PAGE_SIZE)) (page_pattern p) mem)
    (<[p:=dict_len pt]> pt) c.
Proof.
  intros [Hlen Hlines Hcoh] Hp.
  assert (dict_len (<[p:=dict_len pt]> pt) = dict_len pt + 1) as Hsize.
  { unfold dict_len. rewrite map_size_insert_None by done. lia. }
  assert (0 ≤ dict_len pt) as Hpos by (unfold dict_len; lia).
  split; [done..|].
  intros n line Hn Hvalid. destruct (Hcoh n line Hn Hvalid) as (H0 & Hend & Hdata).
  rewrite Hsize. split_and!; [done|unfold PAGE_SIZE in *; lia|].
  rewrite slice_inserts_below; [done|done|].
  unfold PAGE_SIZE in *. lia.
Qed.

Lemma tlb_ok_weaken pt pt' t q : tlb_ok pt t q → pt ⊆ pt' → tlb_ok pt' t q.
Proof. intros [Hsub Hkeys Hnodup Hcap] Hpt. split; [by etrans|done..]. Qed.

(** ** [update_tlb] keeps the TLB and its queue in step *)

Lemma update_tlb_ok mem pt t q c st p f :
  tlb_ok pt t q → t !! p = None → pt !! p = Some f →
  ∃ t' q',
    update_tlb p f (State mem pt t q c st) = (Ret tt, State mem pt t' q' c st) ∧
    tlb_ok pt t' q'.
Proof.
  intros [Hsub Hkeys Hnodup Hcap] Hp Hpt.
  assert (p ∉ q) as Hpq.
  { intros Hin. apply (elem_of_list_to_set (C:=gset Z)) in Hin.
    rewrite <- Hkeys in Hin. apply elem_of_dom in Hin as [? ?]. congruence. }
  destruct (decide (dict_len t < TLB_SIZE)) as [Hroom|Hfull].
  - eexists _, _. split; [by apply update_tlb_room|]. split.
    + by apply insert_subseteq_l.
    + rewrite dom_insert_L, list_to_set_snoc_L, Hkeys. apply (comm_L (∪)).
    + apply NoDup_app. split_and!; [done| |apply NoDup_singleton].
      intros x Hx ->%list_elem_of_singleton. done.
    + unfold dict_len in *. rewrite map_size_insert_None by done.
      unfold TLB_SIZE in *. lia.
  - destruct q as [|oldest q'].
    { cbn in Hkeys. apply dom_empty_inv_L in Hkeys. subst t.
      unfold dict_len, TLB_SIZE in Hfull. rewrite map_size_empty in Hfull. lia. }
    assert (is_Some (t !! oldest)) as [f0 Ho].
    { apply elem_of_dom. rewrite Hkeys. apply elem_of_list_to_set. by left. }
    apply NoDup_cons in Hnodup as [Hoq Hnodup].
    eexists _, _. split; [eapply update_tlb_evict; [done|lia|done|done]|]. split.
    + apply insert_subseteq_l; [done|]. etrans; [apply delete_subseteq|done].
    + rewrite dom_insert_L, dom_delete_L, list_to_set_snoc_L, Hkeys.
      rewrite list_to_set_cons.
      apply set_eq. intros x.
      rewrite !elem_of_union, elem_of_difference, elem_of_union.
      rewrite !elem_of_singleton, !elem_of_list_to_set.
      split; [tauto|]. intros [Hx| ->]; [|tauto].
      right. split; [tauto|]. by intros ->.
    + apply NoDup_app. split_and!; [done| |apply NoDup_singleton].
      intros x Hx ->%list_elem_of_singleton. apply Hpq. by right.
    + unfold dict_len in *.
      rewrite map_size_insert_None by (rewrite lookup_delete_ne; [done|congruence]).
      rewrite map_size_delete_Some by done.
      assert (size t ≠ 0%nat).
      { intros ->%map_size_empty_inv. by rewrite lookup_empty in Ho. }
      lia.
Qed.

(** ** [access_cache] keeps the cache coherent and returns the memory byte *)

Lemma block_offset pa :
  0 ≤ pa →
  0 ≤ block_start pa ∧ 0 ≤ offset_of pa < CACHE_LINE_SIZE ∧
  block_start pa + offset_of pa = pa.
Proof.
  intros Hpa. unfold block_start. rewrite block_start_eq, offset_of_eq.
  unfold CACHE_LINE_SIZE. Z.div_mod_to_equations. lia.
Qed.

Lemma line_of_range pa : Z.of_nat (line_of pa) < CACHE_SIZE.
Proof.
  rewrite line_of_eq. unfold CACHE_SIZE.
  pose proof (Z.mod_pos_bound (pa `div` 8) 64). lia.
Qed.

Lemma slice_block_lookup (mem : list Z) pa :
  0 ≤ pa →
  slice mem (block_start pa) CACHE_LINE_SIZE !! Z.to_nat (offset_of pa) =
  mem !! Z.to_nat pa.
Proof.
  intros Hpa. destruct (block_offset pa Hpa) as (Hb & Ho & Hsum).
  rewrite lookup_slice by lia. f_equal. lia.
Qed.

Lemma access_cache_ok mem pt t q c st pa :
  memory_ok mem → cache_ok mem pt c → dict_len pt ≤ 256 →
  0 ≤ pa → block_start pa + CACHE_LINE_SIZE ≤ dict_len pt * PAGE_SIZE →
  ∃ v (hit : bool) c',
    access_cache pa (State mem pt t q c st) =
    (Ret (v, hit),
     State mem pt t q c' (if hit then incr_cache_hits st else incr_cache_misses st)) ∧
    cache_ok mem pt c' ∧
    mem !! Z.to_nat pa = Some v ∧
    ∀ n, n ≠ line_of pa → c' !! n = c !! n.
Proof.
  intros [Hlen Hbytes] [Hclen Hlines Hcoh] Hpt Hpa Hblock.
  destruct (block_offset pa Hpa) as (Hb & Ho & Hsum).
  assert (pa < MEMORY_SIZE) as Hpa'.
  { unfold MEMORY_SIZE, PAGE_SIZE, CACHE_LINE_SIZE in *. lia. }
  destruct (lookup_lt_is_Some_2 c (line_of pa)) as [line Hline].
  { pose proof (line_of_range pa). unfold len in Hclen. lia. }
  assert (len (data line) = CACHE_LINE_SIZE) as Hdlen.
  { by eapply (Forall_lookup_1 _ _ _ _ Hlines). }
  destruct (valid line && bool_decide (tag line = tag_of pa)) eqn:Hhit.
  - apply andb_true_iff in Hhit as [Hvalid Htag%bool_decide_eq_true_1].
    destruct (Hcoh _ _ Hline Hvalid) as (_ & _ & Hdata).
    rewrite Htag, line_block_of in Hdata.
    destruct (lookup_lt_is_Some_2 (data line) (Z.to_nat (offset_of pa))) as [v Hv].
    { unfold len in Hdlen. lia. }
    exists v, true, c. split_and!.
    + by apply (access_cache_hit _ _ _ _ _ _ _ line).
    + done.
    + by rewrite <- slice_block_lookup, <- Hdata.
    + done.
  - destruct (access_cache_miss mem pt t q c st pa line) as (v & Hv & Heq);
      [done|done|lia|done|done|done|].
    exists v, false, (<[line_of pa:=CacheLine (tag_of pa)
                                    (slice mem (block_start pa) CACHE_LINE_SIZE)
                                    true false]> c).
    split_and!.
    + done.
    + split.
      * unfold len in *. by rewrite length_insert.
      * apply Forall_insert; [done|]. cbn [data].
        apply length_slice; [done|unfold CACHE_LINE_SIZE; lia|].
        rewrite Hlen. unfold MEMORY_SIZE, PAGE_SIZE in *. lia.
      * intros n line' Hn Hvalid.
        destruct (decide (n = line_of pa)) as [->|Hne].
        -- rewrite list_lookup_insert_eq in Hn by (by eapply lookup_lt_Some).
           injection Hn as <-. cbn [tag data]. rewrite line_block_of. done.
        -- rewrite list_lookup_insert_ne in Hn by done. eauto.
    + by rewrite <- slice_block_lookup.
    + intros n Hn. by rewrite list_lookup_insert_ne.
Qed.

(** ** One translation keeps the invariant *)

Lemma page_fields va :
  0 ≤ Z.land (va ≫ 8) 255 < 256 ∧ 0 ≤ Z.land va 255 < 256.
Proof.
  rewrite page_num_eq, page_offset_eq.
  split; apply Z.mod_pos_bound; lia.
Qed.

(** A resident page is read through the cache without a failure, and the
    byte returned is the byte of the memory. *)
Lemma access_resident mem pt t q c st p f off :
  memory_ok mem → page_table_ok mem pt → cache_ok mem pt c →
  pt !! p = Some f → 0 ≤ off < 256 →
  let pa := f * PAGE_SIZE + off in
  0 ≤ pa < MEMORY_SIZE ∧
  ∃ v (hit : bool) c',
    access_cache pa (State mem pt t q c st) =
    (Ret (v, hit),
     State mem pt t q c' (if hit then incr_cache_hits st else incr_cache_misses st)) ∧
    cache_ok mem pt c' ∧
    mem !! Z.to_nat pa = Some v ∧
    ∀ n, n ≠ line_of pa → c' !! n = c !! n.
Proof.
  intros Hmem Hpt Hcache Hp Hoff pa.
  pose proof (page_table_size pt (pages_range _ _ Hpt)) as Hsize.
  pose proof (frames_range _ _ Hpt _ _ Hp) as Hf.
  assert (0 ≤ pa < MEMORY_SIZE) as Hpa.
  { unfold pa, MEMORY_SIZE, PAGE_SIZE. lia. }
  split; [done|].
  apply access_cache_ok; [done|done|done|lia|].
  unfold block_start. rewrite block_start_eq.
  unfold pa, PAGE_SIZE, CACHE_LINE_SIZE. Z.div_mod_to_equations. lia.
Qed.

Ltac close_step st hit :=
  first
    [ done | lia | by destruct st, hit
    | split; [done..|]; destruct st, hit; split; cbn in *; lia ].

Lemma translate_address_inv va s :
  inv s →
  ∃ r s',
    translate_address va s = (Ret r, s') ∧
    inv s' ∧
    virtual_addr r = va ∧
    page_num r = Z.land (va ≫ 8) 255 ∧
    page_table s' !! page_num r = Some (frame_num r) ∧
    physical_addr r = frame_num r * PAGE_SIZE + Z.land va 255 ∧
    0 ≤ physical_addr r < MEMORY_SIZE ∧
    main_memory s' !! Z.to_nat (physical_addr r) = Some (value r) ∧
    tlb_hit r = contains (tlb s) (page_num r) ∧
    total_accesses (stats s') = total_accesses (stats s) + 1 ∧
    tlb_hits (stats s') = incr_if (tlb_hit r) (tlb_hits (stats s)) ∧
    cache_hits (stats s') = incr_if (cache_hit r) (cache_hits (stats s)) ∧
    page_faults (stats s') =
      incr_if (negb (contains (page_table s) (page_num r))) (page_faults (stats s)).
Proof.
  destruct s as [mem pt t q c st].
  intros [Hmem Hpt Htlb Hcache [Hc1 Hc2]]. cbn [main_memory page_table tlb tlb_queue cache stats] in *.
  destruct (page_fields va) as [Hp Hoff].
  unfold translate_address. msimpl.
  set (p := Z.land (va ≫ 8) 255) in *. set (off := Z.land va 255) in *.
  destruct (t !! p) as [f|] eqn:Ht.
  - (* TLB hit *)
    rewrite (contains_Some _ _ f) by done.
    unfold dict_getitem. rewrite Ht. msimpl.
    assert (pt !! p = Some f) as Hptp by (by eapply lookup_weaken, tlb_sub).
    destruct (access_resident mem pt t q c (incr_tlb_hits (incr_total_accesses st))
                p f off Hmem Hpt Hcache Hptp Hoff)
      as (Hpa & v & hit & c' & Heq & Hcache' & Hv & _).
    erewrite bind_Ret by exact Heq. unfold ret.
    eexists _, _. split; [reflexivity|].
    cbn [virtual_addr page_num frame_num physical_addr value tlb_hit cache_hit
         main_memory page_table tlb tlb_queue cache stats].
    rewrite (contains_Some _ _ f) by done.
    rewrite (contains_Some pt _ f) by done.
    split_and!; close_step st hit.
  - (* TLB miss *)
    rewrite contains_None by done. msimpl.
    destruct (pt !! p) as [f|] eqn:Hptp.
    + (* page table hit *)
      rewrite (contains_Some _ _ f) by done.
      unfold dict_getitem. rewrite Hptp. msimpl.
      destruct (update_tlb_ok mem pt t q c (incr_tlb_misses (incr_total_accesses st))
                  p f Htlb Ht Hptp) as (t' & q' & Hupd & Htlb').
      erewrite bind_Ret by exact Hupd. msimpl.
      destruct (access_resident mem pt t' q' c (incr_tlb_misses (incr_total_accesses st))
                  p f off Hmem Hpt Hcache Hptp Hoff)
        as (Hpa & v & hit & c' & Heq & Hcache' & Hv & _).
      erewrite bind_Ret by exact Heq. unfold ret.
      eexists _, _. split; [reflexivity|].
      cbn [virtual_addr page_num frame_num physical_addr value tlb_hit cache_hit
           main_memory page_table tlb tlb_queue cache stats].
      rewrite contains_None by done.
      rewrite (contains_Some pt _ f) by done.
      split_and!; close_step st hit.
    + (* page fault *)
      rewrite (contains_None pt) by done. msimpl.
      erewrite bind_Ret; [|apply handle_page_fault_eq, Hmem].
      destruct (fault_frame pt p (pages_range _ _ Hpt) Hptp Hp) as [-> Hf].
      msimpl.
      set (mem' := list_inserts _ _ mem).
      set (pt' := <[p:=dict_len pt]> pt).
      assert (memory_ok mem') as Hmem' by (by apply fault_memory_ok).
      assert (page_table_ok mem' pt') as Hpt' by (by apply fault_page_table_ok).
      assert (cache_ok mem' pt' c) as Hcache' by (by apply fault_cache_ok).
      assert (tlb_ok pt' t q) as Htlb'.
      { eapply tlb_ok_weaken; [done|]. by apply insert_subseteq. }
      assert (pt' !! p = Some (dict_len pt)) as Hptp' by apply lookup_insert_eq.
      destruct (update_tlb_ok mem' pt' t q c
                  (incr_page_faults (incr_tlb_misses (incr_total_accesses st)))
                  p (dict_len pt) Htlb' Ht Hptp') as (t' & q' & Hupd & Htlb'').
      erewrite bind_Ret by exact Hupd. msimpl.
      destruct (access_resident mem' pt' t' q' c
                  (incr_page_faults (incr_tlb_misses (incr_total_accesses st)))
                  p (dict_len pt) off Hmem' Hpt' Hcache' Hptp' Hoff)
        as (Hpa & v & hit & c' & Heq & Hcache'' & Hv & _).
      erewrite bind_Ret by exact Heq. unfold ret.
      eexists _, _. split; [reflexivity|].
      cbn [virtual_addr page_num frame_num physical_addr value tlb_hit cache_hit
           main_memory page_table tlb tlb_queue cache stats].
      rewrite contains_None by done.
      rewrite (contains_None pt) by done.
      split_and!; close_step st hit.
Qed.

(** ** The invariant holds from the start and along every run *)

Lemma length_range n : 0 ≤ n → len (range n) = n.
Proof. intros. unfold len. rewrite range_seqZ, length_seqZ. lia. Qed.

Lemma randint_range a b raw : a ≤ b → a ≤ randint a b raw ≤ b.
Proof.
  intros. unfold randint.
  pose proof (Z.mod_pos_bound raw (b - a + 1)). lia.
Qed.

Lemma fresh_memory_ok rng : memory_ok (fresh_memory rng).
Proof.
  unfold fresh_memory. split.
  - unfold len. rewrite length_fmap. by apply length_range.
  - apply Forall_fmap, Forall_forall. intros i _. cbn.
    pose proof (randint_range 0 255 (rng i)). unfold is_byte. lia.
Qed.

Lemma fresh_cache_lookup (n : nat) :
  Z.of_nat n < CACHE_SIZE → fresh_cache !! n = Some empty_line.
Proof.
  intros Hn. unfold fresh_cache.
  by rewrite list_lookup_fmap, range_seqZ, lookup_seqZ_lt.
Qed.

Lemma after_reset rng s : after (reset_simulator rng) s = initial_state rng.
Proof. reflexivity. Qed.

Lemma inv_initial rng : inv (initial_state rng).
Proof.
  split; cbn [initial_state main_memory page_table tlb tlb_queue cache stats];
    unfold fresh_cache.
  - apply fresh_memory_ok.
  - split; intros *; by rewrite lookup_empty.
  - split.
    + done.
    + by rewrite dom_empty_L.
    + apply NoDup_nil_2.
    + done.
  - split.
    + unfold len. rewrite length_fmap. by apply length_range.
    + apply Forall_fmap, Forall_forall. by intros i _.
    + intros n line Hn Hvalid.
      apply list_lookup_fmap_Some in Hn as (i & -> & _). done.
  - by split.
Qed.

Lemma inv_after va s : inv s → inv (after (translate_address va) s).
Proof.
  intros Hs. destruct (translate_address_inv va s Hs) as (r & s' & Heq & Hs' & _).
  unfold after. by rewrite Heq.
Qed.

Lemma run_snoc vas va s :
  run (vas ++ [va]) s = after (translate_address va) (run vas s).
Proof. unfold run. by rewrite foldl_snoc. Qed.

Lemma run_calls_snoc cs c s :
  run_calls (cs ++ [c]) s = after (do_call c) (run_calls cs s).
Proof. unfold run_calls. by rewrite foldl_snoc. Qed.

Lemma inv_run vas s : inv s → inv (run vas s).
Proof.
  intros Hs. induction vas as [|va vas IH] using rev_ind; [done|].
  rewrite run_snoc. by apply inv_after.
Qed.

Lemma after_do_call c s :
  after (do_call c) s =
  match c with
  | Translate va => after (translate_address va) s
  | Reset rng => initial_state rng
  end.
Proof.
  destruct c as [va|rng]; [|done].
  unfold after, do_call, bind. by destruct (translate_address va s) as [[r|e] s'].
Qed.

Lemma inv_run_calls cs s : inv s → inv (run_calls cs s).
Proof.
  intros Hs. induction cs as [|c cs IH] using rev_ind; [done|].
  rewrite run_calls_snoc, after_do_call.
  destruct c; [by apply inv_after|apply inv_initial].
Qed.

(** ** What a call leaves alone, whatever its outcome

    The state after a call ([after]) exists also when the call raises, so
    these frame properties need no assumption on the state. *)

Section preserves.
Context (R : relation state) `{!PreOrder R}.

Lemma preserves_ret {A} (a : A) : preserves R (ret a).
Proof. intros s. reflexivity. Qed.

Lemma preserves_raise {A} e : preserves R (raise (A:=A) e).
Proof. intros s. reflexivity. Qed.

Lemma preserves_gets {A} (f : state → A) : preserves R (gets f).
Proof. intros s. reflexivity. Qed.

Lemma preserves_lift {A} (o : outcome A) : preserves R (lift o).
Proof. intros s. reflexivity. Qed.

Lemma preserves_modify f : (∀ s, R s (f s)) → preserves R (modify f).
Proof. intros H s. apply H. Qed.

Lemma after_bind {A B} (m : M A) (k : A → M B) s :
  R s (m s).2 →
  (∀ a s', m s = (Ret a, s') → R s' (k a s').2) →
  R s (bind m k s).2.
Proof.
  intros Hm Hk. unfold bind. destruct (m s) as [[a|e] s'] eqn:Heq; [|done].
  etrans; [exact Hm|]. by apply Hk.
Qed.

Lemma preserves_bind {A B} (m : M A) (k : A → M B) :
  preserves R m → (∀ a, preserves R (k a)) → preserves R (bind m k).
Proof. intros Hm Hk s. apply after_bind; [apply Hm|]. intros a s' _. apply Hk. Qed.

Lemma preserves_for_each l body :
  (∀ i, preserves R (body i)) → preserves R (for_each l body).
Proof.
  intros Hbody. induction l as [|i l IH]; [apply preserves_ret|].
  cbn [for_each]. by apply preserves_bind.
Qed.
End preserves.

#[local] Instance counters_le_preorder : PreOrder counters_le.
Proof.
  split.
  - intros s. unfold counters_le. lia.
  - intros s1 s2 s3. unfold counters_le. lia.
Qed.

#[local] Instance only_line_preorder n : PreOrder (only_line n).
Proof.
  split.
  - intros s. by repeat split.
  - intros s1 s2 s3 (?&?&?&?&?&H12) (?&?&?&?&?&H23).
    repeat split; try congruence.
    intros j Hj. by rewrite H23, H12.
Qed.

Ltac preserves_tac :=
  repeat first
    [ apply preserves_bind; [apply _| |intros ?]
    | apply preserves_gets; apply _
    | apply preserves_lift; apply _
    | apply preserves_ret; apply _
    | apply preserves_raise; apply _
    | apply preserves_for_each; [apply _|intros ?]
    | match goal with |- preserves _ (match ?x with _ => _ end) => destruct x end
    | match goal with |- preserves _ (if ?x then _ else _) => destruct x end ].

Lemma counters_le_stats f :
  (∀ st, tlb_hits st ≤ tlb_hits (f st) ∧ tlb_misses st ≤ tlb_misses (f st) ∧
         cache_hits st ≤ cache_hits (f st) ∧ cache_misses st ≤ cache_misses (f st) ∧
         page_faults st ≤ page_faults (f st) ∧
         total_accesses st ≤ total_accesses (f st)) →
  preserves counters_le (modify (set_stats f)).
Proof. intros H. apply preserves_modify. intros s. apply H. Qed.

Lemma counters_le_other f :
  (∀ s, stats (f s) = stats s) → preserves counters_le (modify f).
Proof.
  intros H. apply preserves_modify. intros s.
  unfold counters_le. rewrite H. lia.
Qed.

Ltac counters_tac :=
  repeat first
    [ progress preserves_tac
    | apply counters_le_stats; intros []; cbn; lia
    | apply counters_le_other; by intros [] ].

Lemma handle_page_fault_counters p : preserves counters_le (handle_page_fault p).
Proof. unfold handle_page_fault, store_memory. counters_tac. Qed.

Lemma update_tlb_counters p f : preserves counters_le (update_tlb p f).
Proof. unfold update_tlb. counters_tac. Qed.

Lemma access_cache_counters pa : preserves counters_le (access_cache pa).
Proof.
  unfold access_cache. destruct (get_cache_components pa) as [[tag' index] offset].
  unfold line_ref, read_line, load_memory, store_line_data, read_line, write_line.
  counters_tac.
Qed.

Lemma translate_address_counters va : preserves counters_le (translate_address va).
Proof.
  unfold translate_address.
  pose proof handle_page_fault_counters. pose proof update_tlb_counters.
  pose proof access_cache_counters.
  counters_tac; done.
Qed.

Lemma only_line_stats n f : preserves (only_line n) (modify (set_stats f)).
Proof. apply preserves_modify. intros s. by repeat split. Qed.

Lemma only_line_write n f : preserves (only_line n) (write_line n f).
Proof.
  apply preserves_modify. intros s. repeat split; cbn.
  - apply length_alter.
  - intros j Hj. by apply list_lookup_alter_ne.
Qed.

Lemma line_ref_Ret index s r s' :
  0 ≤ index → line_ref index s = (Ret r, s') → r = Z.to_nat index ∧ s' = s.
Proof.
  intros Hindex. unfold line_ref. msimpl. unfold index_of.
  repeat case_decide; intros [=]; (done || lia).
Qed.

Lemma access_cache_only_line pa :
  preserves (only_line (line_of pa)) (access_cache pa).
Proof.
  intros s. unfold access_cache, line_of.
  pose proof (get_cache_components_eq pa) as Hc.
  destruct (get_cache_components pa) as [[tag' index] offset].
  injection Hc as _ Hindex _. cbn [fst snd].
  assert (0 ≤ index) by (subst index; apply Z.mod_pos_bound; lia).
  apply after_bind; [apply _| |].
  { unfold line_ref. revert s. preserves_tac. }
  intros r s' [-> ->]%line_ref_Ret; [|done].
  revert s. unfold read_line, load_memory, store_line_data, read_line.
  pose proof (only_line_stats (Z.to_nat index)).
  pose proof (only_line_write (Z.to_nat index)).
  preserves_tac; done.
Qed.

(** * The claims *)

(** ** Frames are never reused by the translation pipeline *)

Lemma run_page_table_ok rng vas :
  let s := run vas (initial_state rng) in
  page_table_ok (main_memory s) (page_table s) ∧ dict_len (page_table s) ≤ 256.
Proof.
  intros s. pose proof (inv_run vas _ (inv_initial rng)) as [_ Hpt _ _ _].
  split; [done|]. eapply page_table_size, pages_range, Hpt.
Qed.

(** The wraparound of the frame count needs a table of 256 pages and one
    more page to fault: only then does the handler hand out frame 0
    again.  A direct call of [handle_page_fault] can do that;
    [translate_address] cannot, as the next lemmas show. *)
Lemma handle_page_fault_wraps s p :
  len (main_memory s) = MEMORY_SIZE → dict_len (page_table s) = NUM_PAGES →
  (handle_page_fault p s).1 = Ret 0.
Proof.
  destruct s as [mem pt t q c st]. cbn [main_memory page_table]. intros Hlen Hsize.
  rewrite handle_page_fault_eq by done. cbn [fst]. by rewrite Hsize.
Qed.

(** C1, refuted as stated: no sequence of [translate_address] calls from
    the reset state leaves two different pages of the page table on the
    same frame.  The page number is cut to 8 bits, so at most 256 pages
    ever fault and [len(page_table) % NUM_PAGES] never wraps around. *)
Lemma translate_address_never_aliases :
  ¬ ∃ (rng : Z → Z) (vas : list Z) (p p' f : Z),
      p ≠ p' ∧
      page_table (run vas (initial_state rng)) !! p = Some f ∧
      page_table (run vas (initial_state rng)) !! p' = Some f.
Proof.
  intros (rng & vas & p & p' & f & Hne & Hp & Hp').
  destruct (run_page_table_ok rng vas) as [Hpt _].
  apply Hne. eapply frames_distinct; eauto.
Qed.

(** C1, amended: after any sequence of [translate_address] calls from the
    reset state, a frame of the page table belongs to one page only, it
    is below the number of resident pages (at most 256), and it still
    holds the bytes written when its page faulted. *)
Theorem resident_frame_private rng vas p f :
  let s := run vas (initial_state rng) in
  page_table s !! p = Some f →
  (∀ p', page_table s !! p' = Some f → p' = p) ∧
  0 ≤ f < dict_len (page_table s) ∧ dict_len (page_table s) ≤ NUM_PAGES ∧
  slice (main_memory s) (f * PAGE_SIZE) PAGE_SIZE = page_pattern p.
Proof.
  intros s Hp. destruct (run_page_table_ok rng vas) as [Hpt Hsize]. fold s in Hpt, Hsize.
  split_and!.
  - intros p' Hp'. eapply frames_distinct; eauto.
  - eapply frames_range; eauto.
  - eapply frames_range; eauto.
  - done.
  - eapply frames_content; eauto.
Qed.

(** An instance with two resident pages: after the addresses [0] and
    [256] of a fresh simulator, page 0 is in frame 0 and page 1 in frame
    1, which no other page holds. *)
Lemma resident_frame_private_witness :
  let s := run [0; 256] (initial_state (λ _, 0)) in
  page_table s !! 0 = Some 0 ∧
  page_table s !! 1 = Some 1 ∧
  ((∀ p', page_table s !! p' = Some 1 → p' = 1) ∧
   0 ≤ 1 < dict_len (page_table s) ∧
   dict_len (page_table s) ≤ NUM_PAGES ∧
   slice (main_memory s) (1 * PAGE_SIZE) PAGE_SIZE = page_pattern 1).
Proof.
  intros s.
  assert (page_table s !! 0 = Some 0) as H0 by (vm_compute; reflexivity).
  assert (page_table s !! 1 = Some 1) as H by (vm_compute; reflexivity).
  split; [exact H0|]. split; [exact H|].
  exact (resident_frame_private (λ _, 0) [0; 256] 1 1 H).
Defined.

(** ** The first access of a fresh simulator *)

Lemma page_pattern_0 : page_pattern 0 = (λ i, i `mod` 256) <$> seqZ 0 256.
Proof. reflexivity. Qed.

Lemma first_access_from mem c :
  memory_ok mem → c !! 0%nat = Some empty_line →
  translate_address 0 (State mem ∅ ∅ [] c (Statistics 0 0 0 0 0 0)) =
  (Ret (Translation 0 0 0 0 0 false false
          [TLB_MISS 0; PAGE_FAULT 0 0; TLB_UPDATE 0 0; PHYSICAL_ADDRESS 0; CACHE_MISS 0]),
   State (list_inserts 0 (page_pattern 0) mem)
         {[0 := 0]} {[0 := 0]} [0]
         (<[0%nat:=CacheLine 0 [0; 1; 2; 3; 4; 5; 6; 7] true false]> c)
         (Statistics 0 1 0 1 1 1)).
Proof.
  intros [Hlen Hbytes] Hc.
  unfold translate_address. msimpl.
  change (Z.land (0 ≫ 8) 255) with 0. change (Z.land 0 255) with 0.
  rewrite contains_None by apply lookup_empty. msimpl.
  rewrite contains_None by apply lookup_empty. msimpl.
  erewrite bind_Ret; [|apply handle_page_fault_eq, Hlen].
  change (dict_len ∅ `mod` NUM_PAGES) with 0. change (0 * PAGE_SIZE) with 0.
  msimpl.
  erewrite bind_Ret; [|apply update_tlb_room; [apply lookup_empty|reflexivity]].
  msimpl. change (Z.to_nat 0) with 0%nat.
  set (mem' := list_inserts 0 (page_pattern 0) mem).
  assert (memory_ok mem') as [Hlen' Hbytes'] by (by apply fault_memory_ok).
  assert (slice mem' 0 PAGE_SIZE = page_pattern 0) as Hpage.
  { unfold mem'. apply (slice_inserts_at mem (page_pattern 0) 0).
    - lia.
    - by rewrite length_page_pattern.
    - rewrite Hlen. unfold PAGE_SIZE, MEMORY_SIZE. lia. }
  assert (slice mem' (block_start 0) CACHE_LINE_SIZE = [0; 1; 2; 3; 4; 5; 6; 7]) as Hblock.
  { change (block_start 0) with 0.
    transitivity (take 8 (slice mem' 0 PAGE_SIZE)).
    - unfold slice. rewrite take_take. reflexivity.
    - rewrite Hpage. reflexivity. }
  destruct (access_cache_miss mem' (<[0:=0]> ∅) (<[0:=0]> ∅) ([] ++ [0]) c
              (incr_page_faults (incr_tlb_misses (incr_total_accesses (Statistics 0 0 0 0 0 0))))
              0 empty_line) as (v & Hv & Hacc).
  - exact Hlen'.
  - exact Hbytes'.
  - unfold MEMORY_SIZE. lia.
  - exact Hc.
  - reflexivity.
  - reflexivity.
  - rewrite Hblock in Hv, Hacc. injection Hv as <-.
    erewrite bind_Ret by exact Hacc. reflexivity.
Qed.

(** C2: on a simulator just initialised or reset, [translate_address(0x0000)]
    has page 0 and offset 0, misses the TLB and the page table, faults
    page 0 into frame 0, writes [i % 256] to the addresses [0 .. 255],
    misses the cache and fills line 0 with [0 .. 7]; the record returned
    has [tlb_hit = False], [cache_hit = False], [value = 0],
    [physical_addr = 0] and [frame_num = 0]. *)
Theorem first_access rng s0 :
  translate_address 0 (after (reset_simulator rng) s0) =
  (Ret (Translation 0 0 0 0 0 false false
          [TLB_MISS 0; PAGE_FAULT 0 0; TLB_UPDATE 0 0; PHYSICAL_ADDRESS 0; CACHE_MISS 0]),
   State (list_inserts 0 ((λ i, i `mod` 256) <$> seqZ 0 256) (fresh_memory rng))
         {[0 := 0]} {[0 := 0]} [0]
         (<[0%nat:=CacheLine 0 [0; 1; 2; 3; 4; 5; 6; 7] true false]> fresh_cache)
         (Statistics 0 1 0 1 1 1)) ∧
  slice (main_memory (after (translate_address 0) (after (reset_simulator rng) s0))) 0 256 =
  (λ i, i `mod` 256) <$> seqZ 0 256.
Proof.
  rewrite after_reset. unfold initial_state.
  pose proof (fresh_memory_ok rng) as Hmem.
  pose proof (first_access_from _ _ Hmem (fresh_cache_lookup 0 eq_refl)) as Heq.
  rewrite page_pattern_0 in Heq.
  split; [exact Heq|].
  unfold after. rewrite Heq. cbn [snd main_memory].
  apply (slice_inserts_at _ _ 0).
  - lia.
  - by rewrite length_fmap, length_seqZ.
  - rewrite (memory_len _ Hmem). unfold MEMORY_SIZE. lia.
Qed.

(** ** Cache and memory agree *)

(** C3: in every state reached from the reset state by [translate_address]
    calls, a valid cache line holds the 8 bytes of the aligned block of
    memory that its tag and its index name, and that block lies inside
    the memory. *)
Theorem cache_coherence rng vas (n : nat) line :
  let s := run vas (initial_state rng) in
  cache s !! n = Some line → valid line = true →
  data line = slice (main_memory s) (line_block (tag line) n) CACHE_LINE_SIZE ∧
  0 ≤ line_block (tag line) n ∧
  line_block (tag line) n + CACHE_LINE_SIZE ≤ MEMORY_SIZE.
Proof.
  intros s Hn Hvalid.
  pose proof (inv_run vas _ (inv_initial rng)) as [_ Hpt _ Hcache _]. fold s in Hpt, Hcache.
  pose proof (page_table_size _ (pages_range _ _ Hpt)) as Hsize.
  destruct (cache_coherent _ _ _ Hcache n line Hn Hvalid) as (H0 & Hend & Hdata).
  split_and!; [done|done|].
  unfold MEMORY_SIZE, PAGE_SIZE in *. lia.
Qed.

(** An instance: line 0 after one access of a fresh simulator. *)
Lemma cache_coherence_witness :
  cache (run [0] (initial_state (λ _, 0))) !! 0%nat =
    Some (CacheLine 0 [0; 1; 2; 3; 4; 5; 6; 7] true false) ∧
  [0; 1; 2; 3; 4; 5; 6; 7] =
    slice (main_memory (run [0] (initial_state (λ _, 0)))) (line_block 0 0) CACHE_LINE_SIZE ∧
  0 ≤ line_block 0 0 ∧
  line_block 0 0 + CACHE_LINE_SIZE ≤ MEMORY_SIZE.
Proof.
  assert (cache (run [0] (initial_state (λ _, 0))) !! 0%nat =
          Some (CacheLine 0 [0; 1; 2; 3; 4; 5; 6; 7] true false)) as H
    by (vm_compute; reflexivity).
  split; [exact H|].
  exact (cache_coherence (λ _, 0) [0] 0 _ H eq_refl).
Defined.

(** ** The fault handler *)

(** C4: on a memory of [MEMORY_SIZE] bytes, [handle_page_fault(page_num)]
    takes frame [len(page_table) % 256], writes [(page_num + i) % 256] at
    [frame_num * 256 + i] for [i] in [0 .. 255] and nothing elsewhere,
    records [page_num -> frame_num], adds one to [page_faults] and returns
    the frame.  It holds whether or not [page_num] was in the table. *)
Theorem handle_page_fault_spec s page_num :
  len (main_memory s) = MEMORY_SIZE →
  let frame_num := dict_len (page_table s) `mod` 256 in
  ∃ s',
    handle_page_fault page_num s = (Ret frame_num, s') ∧
    Forall (λ i, main_memory s' !! Z.to_nat (frame_num * 256 + i) =
                 Some ((page_num + i) `mod` 256)) (range 256) ∧
    (∀ j : nat, ¬ (frame_num * 256 ≤ Z.of_nat j < frame_num * 256 + 256) →
                main_memory s' !! j = main_memory s !! j) ∧
    page_table s' = <[page_num:=frame_num]> (page_table s) ∧
    stats s' = incr_page_faults (stats s) ∧
    page_faults (stats s') = page_faults (stats s) + 1 ∧
    tlb s' = tlb s ∧ tlb_queue s' = tlb_queue s ∧ cache s' = cache s.
Proof.
  destruct s as [mem pt t q c st]. intros Hlen frame_num.
  cbn [main_memory page_table tlb tlb_queue cache stats] in *.
  assert (0 ≤ frame_num < 256) as Hf by (apply Z.mod_pos_bound; lia).
  eexists. split; [apply handle_page_fault_eq, Hlen|].
  cbn [main_memory page_table tlb tlb_queue cache stats].
  change (dict_len pt `mod` NUM_PAGES) with frame_num.
  split_and!; try done.
  - rewrite range_seqZ. apply Forall_seqZ. intros i Hi.
    rewrite list_lookup_inserts; cycle 1.
    { rewrite length_page_pattern. unfold PAGE_SIZE. lia. }
    { unfold len, MEMORY_SIZE, PAGE_SIZE in *. lia. }
    unfold page_pattern, PAGE_SIZE.
    rewrite list_lookup_fmap, lookup_seqZ_lt by lia. cbn.
    do 2 f_equal. lia.
  - intros j Hj.
    destruct (decide (Z.of_nat j < frame_num * 256)).
    + apply list_lookup_inserts_lt. unfold PAGE_SIZE. lia.
    + apply list_lookup_inserts_ge. rewrite length_page_pattern.
      unfold PAGE_SIZE. lia.
Qed.

(** An instance: page 5 faults first in a fresh simulator. *)
Lemma handle_page_fault_spec_witness :
  len (main_memory (initial_state (λ _, 0))) = MEMORY_SIZE ∧
  ∃ s',
    handle_page_fault 5 (initial_state (λ _, 0)) = (Ret 0, s') ∧
    Forall (λ i, main_memory s' !! Z.to_nat (0 * 256 + i) = Some ((5 + i) `mod` 256))
           (range 256) ∧
    (∀ j : nat, ¬ (0 * 256 ≤ Z.of_nat j < 0 * 256 + 256) →
                main_memory s' !! j = main_memory (initial_state (λ _, 0)) !! j) ∧
    page_table s' = <[5:=0]> (page_table (initial_state (λ _, 0))) ∧
    stats s' = incr_page_faults (stats (initial_state (λ _, 0))) ∧
    page_faults (stats s') = page_faults (stats (initial_state (λ _, 0))) + 1 ∧
    tlb s' = tlb (initial_state (λ _, 0)) ∧
    tlb_queue s' = tlb_queue (initial_state (λ _, 0)) ∧
    cache s' = cache (initial_state (λ _, 0)).
Proof.
  assert (len (main_memory (initial_state (λ _, 0))) = MEMORY_SIZE) as H
    by (vm_compute; reflexivity).
  split; [exact H|].
  exact (handle_page_fault_spec (initial_state (λ _, 0)) 5 H).
Defined.

(** ** The TLB and its queue *)

(** C5: in every state reached from the reset state by [translate_address]
    and [reset_simulator] calls, the TLB holds at most 16 entries and the
    keys in the queue are the keys of the TLB, each once. *)
Theorem tlb_capacity_and_queue rng cs :
  let s := run_calls cs (initial_state rng) in
  dict_len (tlb s) ≤ TLB_SIZE ∧
  dom (tlb s) =@{gset Z} list_to_set (tlb_queue s) ∧
  NoDup (tlb_queue s) ∧
  len (tlb_queue s) = dict_len (tlb s).
Proof.
  intros s.
  pose proof (inv_run_calls cs _ (inv_initial rng)) as [_ _ [_ Hkeys Hnodup Hcap] _ _].
  fold s in Hkeys, Hnodup, Hcap.
  split_and!; [done..|].
  unfold len, dict_len. f_equal.
  by rewrite <- (size_dom (D:=gset Z)), Hkeys, size_list_to_set.
Qed.

(** C6: from an empty TLB, [update_tlb] for the pages [0, 1, ..., 16] in
    turn fills the TLB with the pages [0 .. 15] and then, for page 16,
    evicts page 0 and nothing else: the TLB ends with exactly the pages
    [1 .. 16] and the queue is [1, 2, ..., 16], oldest first. *)
Theorem fifo_eviction mem pt c st (frame : Z → Z) :
  let s0 := State mem pt ∅ [] c st in
  let fill p := update_tlb p (frame p) in
  for_each (range 16) fill s0 =
    (Ret tt,
     State mem pt (list_to_map ((λ p, (p, frame p)) <$> range 16)) (range 16) c st) ∧
  for_each (range 17) fill s0 =
    (Ret tt,
     State mem pt (list_to_map ((λ p, (p, frame p)) <$> range_from 1 16))
           (range_from 1 16) c st) ∧
  tlb (after (for_each (range 17) fill) s0) !! 0 = None ∧
  dom (tlb (after (for_each (range 17) fill) s0)) =@{gset Z} list_to_set (range_from 1 16) ∧
  head (tlb_queue (after (for_each (range 17) fill) s0)) = Some 1.
Proof.
  intros s0 fill.
  assert (for_each (range 17) fill s0 =
    (Ret tt,
     State mem pt (list_to_map ((λ p, (p, frame p)) <$> range_from 1 16))
           (range_from 1 16) c st)) as H17 by (vm_compute; reflexivity).
  split_and!.
  - vm_compute. reflexivity.
  - exact H17.
  - unfold after. rewrite H17. vm_compute. reflexivity.
  - unfold after. rewrite H17. cbn [snd tlb].
    rewrite dom_list_to_map_L, <- list_fmap_compose.
    f_equal.
  - unfold after. rewrite H17. reflexivity.
Qed.

(** ** The counters *)

Lemma run_total vas s :
  inv s →
  total_accesses (stats (run vas s)) = total_accesses (stats s) + len vas.
Proof.
  intros Hs. induction vas as [|va vas IH] using rev_ind.
  - cbn. unfold len. cbn. lia.
  - rewrite run_snoc.
    destruct (translate_address_inv va (run vas s) (inv_run vas s Hs))
      as (r & s' & Heq & _ & _ & _ & _ & _ & _ & _ & _ & Htotal & _).
    unfold after. rewrite Heq. cbn [snd]. rewrite Htotal, IH.
    unfold len. rewrite length_app. cbn. lia.
Qed.

(** C7: after [N] calls of [translate_address] from the reset state,
    [total_accesses] is [N] and both [tlb_hits + tlb_misses] and
    [cache_hits + cache_misses] equal it; and a call, in any state at all,
    lowers none of the six counters. *)
Theorem counters_consistent rng vas :
  let st := stats (run vas (initial_state rng)) in
  total_accesses st = len vas ∧
  tlb_hits st + tlb_misses st = total_accesses st ∧
  cache_hits st + cache_misses st = total_accesses st ∧
  ∀ s va, counters_le s (after (translate_address va) s).
Proof.
  intros st.
  pose proof (inv_run vas _ (inv_initial rng)) as [_ _ _ _ [Htlb Hcache]].
  split_and!.
  - subst st. by rewrite run_total by apply inv_initial.
  - done.
  - done.
  - intros s va. apply translate_address_counters.
Qed.

(** ** Cache fill *)

(** C8: for a physical address in [[0, 65536)] whose line is invalid or
    carries another tag, one [access_cache] reports a miss, makes the
    line valid with tag [physical_addr >> 9] and with the 8 bytes of the
    8-byte-aligned block of memory that contains the address, and returns
    the byte of that block at the low three bits of the address, which is
    the byte of memory at the address. *)
Theorem access_cache_fill s physical_addr line :
  memory_ok (main_memory s) →
  0 ≤ physical_addr < MEMORY_SIZE →
  cache s !! line_of physical_addr = Some line →
  len (data line) = CACHE_LINE_SIZE →
  valid line = false ∨ tag line ≠ physical_addr ≫ 9 →
  let block := slice (main_memory s) (block_start physical_addr) CACHE_LINE_SIZE in
  ∃ v s',
    access_cache physical_addr s = (Ret (v, false), s') ∧
    cache s' !! line_of physical_addr =
      Some (CacheLine (physical_addr ≫ 9) block true false) ∧
    block !! Z.to_nat (Z.land physical_addr 7) = Some v ∧
    main_memory s !! Z.to_nat physical_addr = Some v ∧
    block_start physical_addr `mod` 8 = 0 ∧
    block_start physical_addr ≤ physical_addr < block_start physical_addr + 8 ∧
    main_memory s' = main_memory s ∧
    cache_misses (stats s') = cache_misses (stats s) + 1.
Proof.
  destruct s as [mem pt t q c st]. intros Hmem Hpa Hline Hlen Hmiss block.
  cbn [main_memory page_table tlb tlb_queue cache stats] in *.
  destruct (access_cache_miss mem pt t q c st physical_addr line)
    as (v & Hv & Heq); [apply Hmem|apply Hmem|done..| |].
  { destruct Hmiss as [->|Htag]; [done|].
    rewrite andb_false_iff. right. by apply bool_decide_eq_false_2. }
  exists v. eexists. split; [exact Heq|].
  cbn [main_memory page_table tlb tlb_queue cache stats].
  destruct (block_offset physical_addr) as (Hb & Ho & Hsum); [lia|].
  split_and!.
  - apply list_lookup_insert_eq. by eapply lookup_lt_Some.
  - exact Hv.
  - rewrite <- Hv. symmetry. apply slice_block_lookup. lia.
  - unfold block_start. rewrite block_start_eq. Z.div_mod_to_equations. lia.
  - lia.
  - unfold CACHE_LINE_SIZE in *. lia.
  - done.
  - by destruct st.
Qed.

(** An instance: address 0 in a fresh simulator, whose lines are invalid. *)
Lemma access_cache_fill_witness :
  memory_ok (main_memory (initial_state (λ _, 0))) ∧
  0 ≤ 0 < MEMORY_SIZE ∧
  cache (initial_state (λ _, 0)) !! line_of 0 = Some empty_line ∧
  len (data empty_line) = CACHE_LINE_SIZE ∧
  (valid empty_line = false ∨ tag empty_line ≠ 0 ≫ 9) ∧
  ∃ v s',
    access_cache 0 (initial_state (λ _, 0)) = (Ret (v, false), s') ∧
    cache s' !! line_of 0 =
      Some (CacheLine (0 ≫ 9)
              (slice (main_memory (initial_state (λ _, 0))) (block_start 0) CACHE_LINE_SIZE)
              true false) ∧
    slice (main_memory (initial_state (λ _, 0))) (block_start 0) CACHE_LINE_SIZE
      !! Z.to_nat (Z.land 0 7) = Some v ∧
    main_memory (initial_state (λ _, 0)) !! Z.to_nat 0 = Some v ∧
    block_start 0 `mod` 8 = 0 ∧
    block_start 0 ≤ 0 < block_start 0 + 8 ∧
    main_memory s' = main_memory (initial_state (λ _, 0)) ∧
    cache_misses (stats s') = cache_misses (stats (initial_state (λ _, 0))) + 1.
Proof.
  assert (memory_ok (main_memory (initial_state (λ _, 0)))) as H1
    by apply fresh_memory_ok.
  assert (0 ≤ 0 < MEMORY_SIZE) as H2 by (unfold MEMORY_SIZE; lia).
  assert (cache (initial_state (λ _, 0)) !! line_of 0 = Some empty_line) as H3
    by (vm_compute; reflexivity).
  assert (len (data empty_line) = CACHE_LINE_SIZE) as H4 by reflexivity.
  assert (valid empty_line = false ∨ tag empty_line ≠ 0 ≫ 9) as H5
    by (left; reflexivity).
  refine (conj H1 (conj H2 (conj H3 (conj H4 (conj H5 _))))).
  exact (access_cache_fill (initial_state (λ _, 0)) 0 empty_line H1 H2 H3 H4 H5).
Defined.

(** ** No access out of range *)

(** C9: in every state reached from the reset state, [translate_address]
    of any virtual address (the ones in [[0, 0xFFFF]] among them) returns,
    the physical address [frame_num * 256 + offset] it computes lies in
    [[0, 65536)], and each index of memory used by the cache fill loop
    and by the page-fault fill loop lies in [[0, 65536)]. *)
Theorem addresses_in_bounds rng vas va :
  let s := run vas (initial_state rng) in
  ∃ r s',
    translate_address va s = (Ret r, s') ∧
    physical_addr r = frame_num r * PAGE_SIZE + Z.land va 255 ∧
    0 ≤ frame_num r < NUM_PAGES ∧
    0 ≤ physical_addr r < MEMORY_SIZE ∧
    Forall (λ i, 0 ≤ block_start (physical_addr r) + i < MEMORY_SIZE)
           (range CACHE_LINE_SIZE) ∧
    Forall (λ i, 0 ≤ dict_len (page_table s) `mod` NUM_PAGES * PAGE_SIZE + i < MEMORY_SIZE)
           (range PAGE_SIZE).
Proof.
  intros s.
  destruct (translate_address_inv va s (inv_run vas _ (inv_initial rng)))
    as (r & s' & Heq & Hs' & _ & _ & Hframe & Hpa & Hrange & _).
  exists r, s'. split; [done|].
  destruct Hs' as [_ Hpt _ _ _].
  pose proof (frames_range _ _ Hpt _ _ Hframe) as Hf.
  pose proof (page_table_size _ (pages_range _ _ Hpt)) as Hsize.
  split; [done|]. split; [rewrite NUM_PAGES_eq; lia|]. split; [done|]. split.
  - rewrite range_seqZ. apply Forall_seqZ. intros i Hi.
    destruct (block_offset (physical_addr r)) as (Hb & Ho & Hsum); [lia|].
    assert (block_start (physical_addr r) + 8 ≤ MEMORY_SIZE); [|unfold CACHE_LINE_SIZE in *; lia].
    unfold block_start in *. rewrite block_start_eq in *.
    unfold MEMORY_SIZE in *. Z.div_mod_to_equations. lia.
  - rewrite range_seqZ. apply Forall_seqZ. intros i Hi.
    pose proof (Z.mod_pos_bound (dict_len (page_table s)) NUM_PAGES eq_refl).
    rewrite NUM_PAGES_eq in *. unfold PAGE_SIZE, MEMORY_SIZE in *. lia.
Qed.

(** ** A TLB hit touches one cache line *)

(** C10: in any state, when the page of the virtual address is in the
    TLB, [translate_address] leaves the memory, the page table, the TLB
    and its queue as they are, and every cache line but the one that the
    index bits of the physical address select; the counters aside,
    nothing else changes. *)
Theorem tlb_hit_frame s va f :
  tlb s !! Z.land (va ≫ 8) 255 = Some f →
  let s' := after (translate_address va) s in
  let physical_addr := f * PAGE_SIZE + Z.land va 255 in
  main_memory s' = main_memory s ∧
  page_table s' = page_table s ∧
  tlb s' = tlb s ∧
  tlb_queue s' = tlb_queue s ∧
  length (cache s') = length (cache s) ∧
  ∀ j, j ≠ line_of physical_addr → cache s' !! j = cache s !! j.
Proof.
  destruct s as [mem pt t q c st]. intros Ht s' pa. subst s'.
  cbn [main_memory page_table tlb tlb_queue cache stats] in *.
  unfold after, translate_address. msimpl.
  rewrite (contains_Some _ _ f) by done.
  unfold dict_getitem. rewrite Ht. msimpl. fold pa.
  apply (after_bind (only_line (line_of pa))).
  - apply access_cache_only_line.
  - intros [v hit] s' _. apply preserves_ret. apply _.
Qed.

(** An instance at a TLB hit of a running simulator: after address [0],
    address [8] is on the page in the TLB and selects line 1, which the
    call fills with the bytes [8 .. 15]; nothing else moves. *)
Lemma tlb_hit_frame_witness :
  let s := run [0] (initial_state (λ _, 0)) in
  tlb s !! Z.land (8 ≫ 8) 255 = Some 0 ∧
  cache s !! 1%nat = Some empty_line ∧
  cache (after (translate_address 8) s) !! 1%nat =
    Some (CacheLine 0 [8; 9; 10; 11; 12; 13; 14; 15] true false) ∧
  line_of (0 * PAGE_SIZE + Z.land 8 255) = 1%nat ∧
  main_memory (after (translate_address 8) s) = main_memory s ∧
  page_table (after (translate_address 8) s) = page_table s ∧
  tlb (after (translate_address 8) s) = tlb s ∧
  tlb_queue (after (translate_address 8) s) = tlb_queue s ∧
  length (cache (after (translate_address 8) s)) = length (cache s) ∧
  ∀ j, j ≠ line_of (0 * PAGE_SIZE + Z.land 8 255) →
       cache (after (translate_address 8) s) !! j = cache s !! j.
Proof.
  intros s.
  assert (tlb s !! Z.land (8 ≫ 8) 255 = Some 0) as H by (vm_compute; reflexivity).
  assert (cache s !! 1%nat = Some empty_line) as H1 by (vm_compute; reflexivity).
  assert (cache (after (translate_address 8) s) !! 1%nat =
          Some (CacheLine 0 [8; 9; 10; 11; 12; 13; 14; 15] true false)) as H2
    by (vm_compute; reflexivity).
  assert (line_of (0 * PAGE_SIZE + Z.land 8 255) = 1%nat) as H3 by reflexivity.
  refine (conj H (conj H1 (conj H2 (conj H3 _)))).
  exact (tlb_hit_frame s 8 0 H).
Defined.

(** * Further properties of the simulator *)

(** ** The fields of an address *)

(** X1: [get_cache_components] loses nothing of an address, of any sign:
    tag, index and offset put together give it back; the index is a line
    number, the offset a byte of a line, and an address of the memory has
    a tag of [CACHE_TAG_BITS] bits. *)
Theorem get_cache_components_roundtrip physical_addr :
  let '(tag_, index, offset) := get_cache_components physical_addr in
  (tag_ ≪ (CACHE_OFFSET_BITS + CACHE_INDEX_BITS)) + (index ≪ CACHE_OFFSET_BITS) + offset
    = physical_addr ∧
  0 ≤ index < CACHE_SIZE ∧
  0 ≤ offset < CACHE_LINE_SIZE ∧
  tag_ = physical_addr `div` (MEMORY_SIZE `div` 2 ^ CACHE_TAG_BITS) ∧
  physical_addr `div` MEMORY_SIZE = tag_ `div` 2 ^ CACHE_TAG_BITS.
Proof.
  rewrite get_cache_components_eq.
  rewrite CACHE_OFFSET_BITS_eq, CACHE_INDEX_BITS_eq.
  rewrite !Z.shiftl_mul_pow2 by lia.
  change (2 ^ (3 + 6)) with 512. change (2 ^ 3) with 8.
  change (MEMORY_SIZE `div` 2 ^ CACHE_TAG_BITS) with 512.
  change (2 ^ CACHE_TAG_BITS) with 128.
  unfold CACHE_SIZE, CACHE_LINE_SIZE, MEMORY_SIZE.
  split_and!; try done; Z.div_mod_to_equations; lia.
Qed.

(** ** What [translate_address] makes of the virtual address *)

Lemma fields_periodic va k :
  Z.land ((va + 65536 * k) ≫ 8) 255 = Z.land (va ≫ 8) 255 ∧
  Z.land (va + 65536 * k) 255 = Z.land va 255.
Proof.
  rewrite !page_num_eq, !page_offset_eq. split; Z.div_mod_to_equations; lia.
Qed.

Lemma bind_map_outcome {A B C} (g : B → C) (m : M A) (k1 : A → M B) (k2 : A → M C) s :
  (∀ a s', k2 a s' = map_outcome g (k1 a s')) →
  bind m k2 s = map_outcome g (bind m k1 s).
Proof.
  intros Hk. unfold bind. destruct (m s) as [[a|e] s']; [apply Hk|done].
Qed.

(** X2: [translate_address] reads a virtual address modulo 65536: an
    address out of [[0, 0xFFFF]], negative ones too, is translated as the
    address in range that differs from it by a multiple of 65536, with
    the same effect on the state; the record returned differs in its
    field [virtual_addr] only.  Nothing is rejected. *)
Theorem translate_address_wraps s va k :
  translate_address (va + 65536 * k) s =
  map_outcome (with_virtual_addr (va + 65536 * k)) (translate_address va s).
Proof.
  unfold translate_address.
  destruct (fields_periodic va k) as [-> ->].
  apply bind_map_outcome. intros [] s1.
  apply bind_map_outcome. intros t s2.
  apply bind_map_outcome. intros [[f hit] log1] s3.
  apply bind_map_outcome. intros [v chit] s4.
  reflexivity.
Qed.

(** X3: in every state reached from the reset state by translations and
    resets, a translation returns a record whose page number and offset
    are the two bytes of the address: [page_num * 256 + offset] is
    [virtual_addr % 65536], which is [virtual_addr] itself for an
    address in [[0, 0xFFFF]]. *)
Theorem page_and_offset rng cs va :
  ∃ r s',
    translate_address va (run_calls cs (initial_state rng)) = (Ret r, s') ∧
    virtual_addr r = va ∧
    0 ≤ page_num r < NUM_PAGES ∧
    0 ≤ physical_addr r - frame_num r * PAGE_SIZE < PAGE_SIZE ∧
    page_num r * PAGE_SIZE + (physical_addr r - frame_num r * PAGE_SIZE) =
      va `mod` 65536.
Proof.
  destruct (translate_address_inv va _ (inv_run_calls cs _ (inv_initial rng)))
    as (r & s' & Heq & _ & Hva & Hp & _ & Hpa & _).
  exists r, s'. split; [done|]. split; [done|].
  rewrite Hpa, Hp, page_num_eq, page_offset_eq.
  rewrite NUM_PAGES_eq. unfold PAGE_SIZE.
  split_and!; Z.div_mod_to_equations; lia.
Qed.

Lemma lookup_page_pattern p off :
  0 ≤ off < PAGE_SIZE →
  page_pattern p !! Z.to_nat off = Some ((p + off) `mod` 256).
Proof.
  intros Hoff. unfold page_pattern.
  rewrite list_lookup_fmap, lookup_seqZ_lt by lia. cbn.
  do 2 f_equal. lia.
Qed.

Lemma translate_value va s r s' :
  inv s → translate_address va s = (Ret r, s') →
  value r = (page_num r + Z.land va 255) `mod` 256.
Proof.
  intros Hs Heq0.
  destruct (translate_address_inv va _ Hs)
    as (r0 & s0 & Heq & Hs' & _ & _ & Hframe & Hpa & Hrange & Hv & _).
  rewrite Heq in Heq0. injection Heq0 as -> ->.
  destruct (page_fields va) as [_ Hoff].
  pose proof (frames_content _ _ (inv_page_table _ Hs') _ _ Hframe) as Hcontent.
  pose proof (frames_range _ _ (inv_page_table _ Hs') _ _ Hframe) as Hf.
  pose proof (lookup_page_pattern (page_num r) (Z.land va 255)) as Hpat.
  rewrite <- Hcontent, lookup_slice in Hpat by (unfold PAGE_SIZE; lia).
  rewrite Hpa in Hv.
  replace (Z.to_nat (frame_num r * PAGE_SIZE + Z.land va 255))
    with (Z.to_nat (frame_num r * PAGE_SIZE) + Z.to_nat (Z.land va 255))%nat in Hv
    by (unfold PAGE_SIZE; lia).
  rewrite Hpat in Hv by (unfold PAGE_SIZE; lia). by injection Hv.
Qed.

(** X4: in every state reached from the reset state by translations and
    resets, the byte that [translate_address] returns is
    [(page_num + offset) % 256], the byte the fault handler wrote for
    that page, whether it comes from the cache or from the memory, and
    it is the byte of the memory at the physical address. *)
Theorem value_of_translation rng cs va :
  ∃ r s',
    translate_address va (run_calls cs (initial_state rng)) = (Ret r, s') ∧
    value r = (page_num r + Z.land va 255) `mod` 256 ∧
    main_memory s' !! Z.to_nat (physical_addr r) = Some (value r).
Proof.
  pose proof (inv_run_calls cs _ (inv_initial rng)) as Hs.
  destruct (translate_address_inv va _ Hs)
    as (r & s' & Heq & _ & _ & _ & _ & _ & _ & Hv & _).
  exists r, s'. split_and!; [done| |done].
  by eapply translate_value.
Qed.

Lemma update_tlb_post mem pt t q c st p f :
  tlb_ok pt t q → t !! p = None → pt !! p = Some f →
  ∃ t' q',
    update_tlb p f (State mem pt t q c st) = (Ret tt, State mem pt t' q' c st) ∧
    tlb_ok pt t' q' ∧ t' !! p = Some f.
Proof.
  intros Hok Hp Hpt.
  destruct (update_tlb_ok mem pt t q c st p f Hok Hp Hpt) as (t' & q' & Heq & Hok').
  exists t', q'. split_and!; [done..|].
  destruct Hok as [_ Hkeys _ _].
  destruct (decide (dict_len t < TLB_SIZE)) as [Hroom|Hfull].
  - rewrite update_tlb_room in Heq by done. injection Heq as <- _.
    apply lookup_insert_eq.
  - destruct q as [|oldest q0].
    { cbn in Hkeys. apply dom_empty_inv_L in Hkeys. subst t.
      unfold dict_len, TLB_SIZE in Hfull. rewrite map_size_empty in Hfull. lia. }
    assert (is_Some (t !! oldest)) as [f0 Ho].
    { apply elem_of_dom. rewrite Hkeys. apply elem_of_list_to_set. by left. }
    erewrite update_tlb_evict in Heq; [|done|lia|done|done].
    injection Heq as <- _. apply lookup_insert_eq.
Qed.

Lemma access_cache_post mem pt t q c st pa :
  memory_ok mem → cache_ok mem pt c → dict_len pt ≤ 256 →
  0 ≤ pa → block_start pa + CACHE_LINE_SIZE ≤ dict_len pt * PAGE_SIZE →
  ∃ v c',
    access_cache pa (State mem pt t q c st) =
    (Ret (v, is_cached c pa),
     State mem pt t q c'
       (if is_cached c pa then incr_cache_hits st else incr_cache_misses st)) ∧
    cache_ok mem pt c' ∧
    mem !! Z.to_nat pa = Some v ∧
    is_cached c' pa = true ∧
    (is_cached c pa = true → c' = c).
Proof.
  intros Hmem Hcache Hpt Hpa Hblock.
  destruct (access_cache_ok mem pt t q c st pa Hmem Hcache Hpt Hpa Hblock)
    as (v & hit & c' & Heq & Hcache' & Hv & _).
  destruct Hmem as [Hlen Hbytes]. destruct Hcache as [Hclen Hlines Hcoh].
  destruct (block_offset pa Hpa) as (Hb & Ho & Hsum).
  destruct (lookup_lt_is_Some_2 c (line_of pa)) as [line Hline].
  { pose proof (line_of_range pa). unfold len in Hclen. lia. }
  assert (len (data line) = CACHE_LINE_SIZE) as Hdlen
    by (by eapply (Forall_lookup_1 _ _ _ _ Hlines)).
  unfold is_cached at 1 2 4. rewrite Hline.
  destruct (valid line && bool_decide (tag line = tag_of pa)) eqn:Hhit.
  - pose proof Hhit as Hhit'.
    apply andb_true_iff in Hhit' as [Hvalid Htag%bool_decide_eq_true_1].
    destruct (lookup_lt_is_Some_2 (data line) (Z.to_nat (offset_of pa))) as [v' Hv'].
    { unfold len in Hdlen. lia. }
    pose proof (access_cache_hit mem pt t q c st pa line v' Hline Hvalid Htag Hv') as H.
    rewrite H in Heq. injection Heq as <- <- <-.
    exists v', c. split_and!; try done.
    unfold is_cached. by rewrite Hline.
  - destruct (access_cache_miss mem pt t q c st pa line) as (v' & Hv' & Heq');
      [done|done|unfold MEMORY_SIZE, PAGE_SIZE, CACHE_LINE_SIZE in *; lia|done..|].
    rewrite Heq' in Heq. injection Heq as <- <- <-.
    eexists v', _. split_and!; [exact Heq'|done|done| |done].
    unfold is_cached. rewrite list_lookup_insert_eq by (by eapply lookup_lt_Some).
    cbn [valid tag]. by rewrite bool_decide_eq_true_2.
Qed.

(** One translation, in more detail than [translate_address_inv]: what
    becomes of the page table, the TLB and the cache. *)
Lemma translate_address_step va s :
  inv s →
  let p := Z.land (va ≫ 8) 255 in
  ∃ r s',
    translate_address va s = (Ret r, s') ∧
    cache_hit r = is_cached (cache s) (physical_addr r) ∧
    tlb s' !! p = Some (frame_num r) ∧
    is_cached (cache s') (physical_addr r) = true ∧
    page_table s' =
      (if contains (page_table s) p then page_table s
       else <[p:=dict_len (page_table s)]> (page_table s)) ∧
    (contains (tlb s) p = true → tlb s !! p = Some (frame_num r)) ∧
    (contains (tlb s) p = true →
     is_cached (cache s) (physical_addr r) = true →
     s' = set_stats (λ st, incr_cache_hits (incr_tlb_hits (incr_total_accesses st))) s) ∧
    main_memory s' =
      (if contains (page_table s) p then main_memory s
       else list_inserts (Z.to_nat (dict_len (page_table s) * PAGE_SIZE))
                         (page_pattern p) (main_memory s)) ∧
    log r = trace_of r (contains (page_table s) p).
Proof.
  destruct s as [mem pt t q c st].
  intros [Hmem Hpt Htlb Hcache _] p.
  cbn [main_memory page_table tlb tlb_queue cache stats] in *.
  destruct (page_fields va) as [Hp Hoff]. fold p in Hp.
  pose proof (page_table_size pt (pages_range _ _ Hpt)) as Hsize.
  unfold translate_address. msimpl. fold p.
  set (off := Z.land va 255) in *.
  assert (∀ mem0 pt0 f, page_table_ok mem0 pt0 → pt0 !! p = Some f →
            0 ≤ f * PAGE_SIZE + off ∧
            block_start (f * PAGE_SIZE + off) + CACHE_LINE_SIZE ≤ dict_len pt0 * PAGE_SIZE ∧
            dict_len pt0 ≤ 256) as Hin.
  { intros mem0 pt0 f Hpt0 Hf.
    pose proof (frames_range _ _ Hpt0 _ _ Hf).
    pose proof (page_table_size pt0 (pages_range _ _ Hpt0)).
    unfold block_start. rewrite block_start_eq.
    unfold PAGE_SIZE, CACHE_LINE_SIZE. split_and!; [lia| |lia].
    Z.div_mod_to_equations. lia. }
  destruct (t !! p) as [f|] eqn:Ht.
  - (* TLB hit *)
    rewrite (contains_Some _ _ f) by done.
    unfold dict_getitem. rewrite Ht. msimpl.
    assert (pt !! p = Some f) as Hptp by (by eapply lookup_weaken, tlb_sub).
    destruct (Hin mem pt f Hpt Hptp) as (H0 & Hblock & _).
    destruct (access_cache_post mem pt t q c (incr_tlb_hits (incr_total_accesses st))
                (f * PAGE_SIZE + off) Hmem Hcache Hsize H0 Hblock)
      as (v & c' & Heq & _ & _ & Hcached & Hsame).
    erewrite bind_Ret by exact Heq. unfold ret.
    eexists _, _. split; [reflexivity|].
    cbn [frame_num physical_addr cache_hit main_memory page_table tlb tlb_queue cache stats].
    unfold trace_of. cbn [log tlb_hit page_num frame_num physical_addr cache_hit value].
    rewrite (contains_Some pt _ f) by done.
    split_and!; try done.
    intros _ Hc. rewrite Hc in *. rewrite Hsame by done. reflexivity.
  - (* TLB miss *)
    rewrite contains_None by done. msimpl.
    destruct (pt !! p) as [f|] eqn:Hptp.
    + rewrite (contains_Some _ _ f) by done.
      unfold dict_getitem. rewrite Hptp. msimpl.
      destruct (update_tlb_post mem pt t q c (incr_tlb_misses (incr_total_accesses st))
                  p f Htlb Ht Hptp) as (t' & q' & Hupd & _ & Ht').
      erewrite bind_Ret by exact Hupd. msimpl.
      destruct (Hin mem pt f Hpt Hptp) as (H0 & Hblock & _).
      destruct (access_cache_post mem pt t' q' c (incr_tlb_misses (incr_total_accesses st))
                  (f * PAGE_SIZE + off) Hmem Hcache Hsize H0 Hblock)
        as (v & c' & Heq & _ & _ & Hcached & _).
      erewrite bind_Ret by exact Heq. unfold ret.
      eexists _, _. split; [reflexivity|].
      cbn [frame_num physical_addr cache_hit main_memory page_table tlb tlb_queue cache stats].
      unfold trace_of. cbn [log tlb_hit page_num frame_num physical_addr cache_hit value].
      split_and!; done.
    + rewrite (contains_None pt) by done. msimpl.
      erewrite bind_Ret; [|apply handle_page_fault_eq, Hmem].
      destruct (fault_frame pt p (pages_range _ _ Hpt) Hptp Hp) as [-> Hf].
      msimpl.
      set (mem' := list_inserts _ _ mem).
      set (pt' := <[p:=dict_len pt]> pt).
      assert (memory_ok mem') as Hmem' by (by apply fault_memory_ok).
      assert (page_table_ok mem' pt') as Hpt' by (by apply fault_page_table_ok).
      assert (cache_ok mem' pt' c) as Hcache' by (by apply fault_cache_ok).
      assert (tlb_ok pt' t q) as Htlb'.
      { eapply tlb_ok_weaken; [done|]. by apply insert_subseteq. }
      assert (pt' !! p = Some (dict_len pt)) as Hptp' by apply lookup_insert_eq.
      destruct (update_tlb_post mem' pt' t q c
                  (incr_page_faults (incr_tlb_misses (incr_total_accesses st)))
                  p (dict_len pt) Htlb' Ht Hptp') as (t' & q' & Hupd & _ & Ht').
      erewrite bind_Ret by exact Hupd. msimpl.
      destruct (Hin mem' pt' _ Hpt' Hptp') as (H0 & Hblock & Hsize').
      destruct (access_cache_post mem' pt' t' q' c
                  (incr_page_faults (incr_tlb_misses (incr_total_accesses st)))
                  (dict_len pt * PAGE_SIZE + off) Hmem' Hcache' Hsize' H0 Hblock)
        as (v & c' & Heq & _ & _ & Hcached & _).
      erewrite bind_Ret by exact Heq. unfold ret.
      eexists _, _. split; [reflexivity|].
      cbn [frame_num physical_addr cache_hit main_memory page_table tlb tlb_queue cache stats].
      unfold trace_of. cbn [log tlb_hit page_num frame_num physical_addr cache_hit value].
      split_and!; done.
Qed.

(** ** The TLB, the page table and the fault counter *)

(** X5: in every state reached from the reset state by translations and
    resets, each entry of the TLB is an entry of the page table, with the
    same frame, and each page of the page table is an 8-bit number whose
    frame is below the number of pages in the table. *)
Theorem tlb_within_page_table rng cs :
  let s := run_calls cs (initial_state rng) in
  tlb s ⊆ page_table s ∧
  map_Forall (λ p f, 0 ≤ p < NUM_PAGES ∧ 0 ≤ f < dict_len (page_table s))
             (page_table s).
Proof.
  intros s.
  pose proof (inv_run_calls cs _ (inv_initial rng)) as [_ Hpt Htlb _ _]. fold s in Hpt, Htlb.
  split; [apply Htlb|].
  intros p f Hp. split.
  - rewrite NUM_PAGES_eq. by eapply pages_range.
  - by eapply frames_range.
Qed.

Lemma contains_false_None d k : contains d k = false → d !! k = None.
Proof. unfold contains. by destruct (d !! k). Qed.

Lemma contains_true_Some d k : contains d k = true → is_Some (d !! k).
Proof. unfold contains. destruct (d !! k); [eauto|done]. Qed.

Lemma faults_count_step va s :
  inv s →
  page_faults (stats s) = dict_len (page_table s) →
  page_faults (stats s) ≤ tlb_misses (stats s) →
  let s' := after (translate_address va) s in
  page_faults (stats s') = dict_len (page_table s') ∧
  page_faults (stats s') ≤ tlb_misses (stats s').
Proof.
  intros Hs Hcount Hle s'. subst s'. unfold after.
  destruct (translate_address_inv va s Hs)
    as (r & s' & Heq & Hs' & _ & Hp & _ & _ & _ & _ & Hhit & Htotal & Hhits & _ & Hfaults).
  destruct (translate_address_step va s Hs) as (r1 & s1 & Heq1 & _ & _ & _ & Hpt & _).
  rewrite Heq in Heq1. injection Heq1 as <- <-.
  rewrite Heq. cbn [snd]. rewrite Hp in *.
  set (p := Z.land (va ≫ 8) 255) in *.
  destruct Hs as [_ _ [Hsub _ _ _] _ [Hc _]]. destruct Hs' as [_ _ _ _ [Hc' _]].
  rewrite Hpt, Hfaults.
  destruct (contains (page_table s) p) eqn:Hin; cbn [negb incr_if].
  - split; [done|].
    destruct (tlb_hit r); cbn [incr_if] in *; lia.
  - apply contains_false_None in Hin.
    assert (contains (tlb s) p = false) as Hmiss.
    { apply contains_None. by eapply lookup_weaken_None. }
    rewrite Hhit, Hmiss in Hhits. cbn [incr_if] in Hhits.
    unfold dict_len in *. rewrite map_size_insert_None by done. lia.
Qed.

(** X6: in every state reached from the reset state by translations and
    resets, [page_faults] is the number of pages in the page table: a
    page faults once and stays.  So at most 256 faults occur between two
    resets, and each of them is also counted as a TLB miss. *)
Theorem faults_count rng cs :
  let s := run_calls cs (initial_state rng) in
  page_faults (stats s) = dict_len (page_table s) ∧
  page_faults (stats s) ≤ NUM_PAGES ∧
  page_faults (stats s) ≤ tlb_misses (stats s).
Proof.
  intros s. subst s.
  enough (page_faults (stats (run_calls cs (initial_state rng))) =
            dict_len (page_table (run_calls cs (initial_state rng))) ∧
          page_faults (stats (run_calls cs (initial_state rng))) ≤
            tlb_misses (stats (run_calls cs (initial_state rng)))) as [H1 H2].
  { split_and!; [done| |done]. rewrite H1, NUM_PAGES_eq.
    eapply page_table_size, pages_range, inv_page_table, inv_run_calls, inv_initial. }
  induction cs as [|c cs IH] using rev_ind; [done|].
  rewrite run_calls_snoc, after_do_call. destruct c as [va|rng']; [|done].
  destruct IH as [IH1 IH2].
  by apply faults_count_step; [apply inv_run_calls, inv_initial|..].
Qed.

(** ** Locality *)

Lemma is_cached_same_block c pa pa' :
  pa' ≫ 3 = pa ≫ 3 → is_cached c pa' = is_cached c pa.
Proof.
  rewrite !Z.shiftr_div_pow2 by lia. change (2 ^ 3) with 8. intros Hblock.
  unfold is_cached. rewrite !line_of_eq, !tag_of_eq, Hblock.
  replace (pa' `div` 512) with (pa `div` 512); [done|].
  Z.div_mod_to_equations. lia.
Qed.

(** X7: after [translate_address(va)] in a state reached from the reset
    state, a translation of an address of the same 8-byte block, [va]
    itself for one, hits the TLB and the cache: it returns the same page
    and frame and the byte [(page_num + offset) % 256], and changes
    nothing but the counters [total_accesses], [tlb_hits] and
    [cache_hits], each by one.  No page fault follows. *)
Theorem same_block_hits rng cs va va' :
  va' ≫ 3 = va ≫ 3 →
  let s := run_calls cs (initial_state rng) in
  ∃ r s1 r',
    translate_address va s = (Ret r, s1) ∧
    translate_address va' s1 =
      (Ret r',
       set_stats (λ st, incr_cache_hits (incr_tlb_hits (incr_total_accesses st))) s1) ∧
    tlb_hit r' = true ∧ cache_hit r' = true ∧
    page_num r' = page_num r ∧ frame_num r' = frame_num r ∧
    value r' = (page_num r' + Z.land va' 255) `mod` 256.
Proof.
  intros Hblock s.
  pose proof (inv_run_calls cs _ (inv_initial rng)) as Hs. fold s in Hs.
  destruct (translate_address_inv va s Hs)
    as (r & s1 & Heq & Hs1 & _ & Hp & _ & Hpa & _).
  destruct (translate_address_step va s Hs)
    as (r0 & s0 & Heq0 & _ & Htlb1 & Hcached1 & _).
  rewrite Heq in Heq0. injection Heq0 as <- <-.
  destruct (translate_address_inv va' s1 Hs1)
    as (r' & s2 & Heq' & _ & _ & Hp' & _ & Hpa' & _ & _ & Hhit' & _).
  destruct (translate_address_step va' s1 Hs1)
    as (r0 & s0 & Heq0 & Hchit' & _ & _ & _ & Hsame & Hstate & _).
  rewrite Heq' in Heq0. injection Heq0 as <- <-.
  assert (Z.land (va' ≫ 8) 255 = Z.land (va ≫ 8) 255) as Hpage.
  { rewrite !page_num_eq. rewrite !Z.shiftr_div_pow2 in Hblock by lia.
    change (2 ^ 3) with 8 in Hblock. Z.div_mod_to_equations. lia. }
  rewrite Hpage in *.
  assert (contains (tlb s1) (Z.land (va ≫ 8) 255) = true) as Hin
    by (by eapply contains_Some).
  specialize (Hsame Hin). rewrite Htlb1 in Hsame. injection Hsame as Hframe.
  assert (is_cached (cache s1) (physical_addr r') = true) as Hcached'.
  { rewrite <- Hcached1. apply is_cached_same_block.
    rewrite Hpa, Hpa', <- Hframe, !page_offset_eq.
    rewrite !Z.shiftr_div_pow2 in * by lia. change (2 ^ 3) with 8 in *.
    unfold PAGE_SIZE. Z.div_mod_to_equations. lia. }
  exists r, s1, r'. split; [done|].
  rewrite <- (Hstate Hin Hcached').
  split_and!; try done.
  - by rewrite Hhit', Hp'.
  - by rewrite Hchit'.
  - by rewrite Hp, Hp'.
  - by eapply translate_value.
Qed.

(** An instance: addresses 0 and 5 of a fresh simulator. *)
Lemma same_block_hits_witness :
  5 ≫ 3 = 0 ≫ 3 ∧
  ∃ r s1 r',
    translate_address 0 (run_calls [] (initial_state (λ _, 0))) = (Ret r, s1) ∧
    translate_address 5 s1 =
      (Ret r',
       set_stats (λ st, incr_cache_hits (incr_tlb_hits (incr_total_accesses st))) s1) ∧
    tlb_hit r' = true ∧ cache_hit r' = true ∧
    page_num r' = page_num r ∧ frame_num r' = frame_num r ∧
    value r' = (page_num r' + Z.land 5 255) `mod` 256.
Proof.
  assert (5 ≫ 3 = 0 ≫ 3) as H by reflexivity.
  split; [exact H|]. exact (same_block_hits (λ _, 0) [] 0 5 H).
Defined.

(** ** The first access after a reset, of any address *)

Lemma is_cached_fresh pa : is_cached fresh_cache pa = false.
Proof.
  unfold is_cached. by rewrite fresh_cache_lookup by apply line_of_range.
Qed.

(** X8: whatever the address, the first translation after a reset misses
    the TLB, faults its page into frame 0, misses the cache and returns
    [(page_num + offset) % 256]; the physical address is the offset, the
    page table and the TLB hold this one page, and the counters read one
    access, one TLB miss, one cache miss and one page fault. *)
Theorem first_access_any rng s0 va :
  ∃ r s',
    translate_address va (after (reset_simulator rng) s0) = (Ret r, s') ∧
    tlb_hit r = false ∧ cache_hit r = false ∧
    frame_num r = 0 ∧ physical_addr r = Z.land va 255 ∧
    value r = (page_num r + Z.land va 255) `mod` 256 ∧
    page_table s' = {[page_num r := 0]} ∧
    tlb s' !! page_num r = Some 0 ∧
    stats s' = Statistics 0 1 0 1 1 1.
Proof.
  rewrite after_reset.
  pose proof (inv_initial rng) as Hs.
  destruct (translate_address_inv va _ Hs)
    as (r & s' & Heq & Hs' & _ & Hp & Hframe & Hpa & _ & _ & Hhit & Htotal & Hhits & Hchits & Hfaults).
  destruct (translate_address_step va _ Hs)
    as (r0 & s0' & Heq0 & Hchit & Htlb & _ & Hpt & _).
  rewrite Heq in Heq0. injection Heq0 as <- <-.
  rewrite <- Hp in Hpt, Htlb.
  cbn [initial_state main_memory page_table tlb tlb_queue cache stats
       tlb_hits cache_hits page_faults total_accesses] in *.
  rewrite contains_None in Hpt, Hhit, Hfaults by apply lookup_empty.
  rewrite is_cached_fresh in Hchit. rewrite Hhit, Hchit in *.
  cbn [negb incr_if] in *.
  change (dict_len ∅) with 0 in Hpt.
  assert (frame_num r = 0) as Hf.
  { rewrite Hpt, lookup_insert_eq in Hframe. by injection Hframe. }
  exists r, s'. split_and!; try done.
  - rewrite Hpa, Hf. lia.
  - eapply translate_value; [|exact Heq]. apply inv_initial.
  - by rewrite <- Hf.
  - destruct Hs' as [_ _ _ _ [Hc1 Hc2]].
    destruct (stats s') as [h m ch cm pf ta]. cbn in *. f_equal; lia.
Qed.

(** ** The fault handler, called directly *)

(** X9: [handle_page_fault] does not look for a free frame: it takes
    [len(page_table) % NUM_PAGES] also when another page [p0] of the
    table holds that frame.  Then both pages map to the frame, whose
    bytes are now those of the new page; the entry of [p0] stays. *)
Theorem handle_page_fault_reuses_frame s p p0 :
  len (main_memory s) = MEMORY_SIZE →
  page_table s !! p0 = Some (dict_len (page_table s) `mod` NUM_PAGES) →
  p ≠ p0 →
  let frame := dict_len (page_table s) `mod` NUM_PAGES in
  ∃ s',
    handle_page_fault p s = (Ret frame, s') ∧
    page_table s' !! p = Some frame ∧
    page_table s' !! p0 = Some frame ∧
    slice (main_memory s') (frame * PAGE_SIZE) PAGE_SIZE = page_pattern p.
Proof.
  destruct s as [mem pt t q c st]. intros Hlen Hp0 Hne frame.
  cbn [main_memory page_table] in *. fold frame in Hp0.
  eexists. split; [apply handle_page_fault_eq, Hlen|].
  cbn [main_memory page_table]. fold frame.
  assert (0 ≤ frame < 256) as Hf by (apply Z.mod_pos_bound; reflexivity).
  split_and!.
  - apply lookup_insert_eq.
  - by rewrite lookup_insert_ne.
  - apply slice_inserts_at.
    + unfold PAGE_SIZE. lia.
    + by rewrite length_page_pattern.
    + rewrite Hlen. unfold PAGE_SIZE, MEMORY_SIZE. lia.
Qed.

(** An instance: page 300 faults into a full table and lands on the frame
    of page 0. *)
Lemma handle_page_fault_reuses_frame_witness :
  let s := State (fresh_memory (λ _, 0)) full_page_table ∅ [] fresh_cache
                 (Statistics 0 0 0 0 0 0) in
  len (main_memory s) = MEMORY_SIZE ∧
  page_table s !! 0 = Some (dict_len (page_table s) `mod` NUM_PAGES) ∧
  300 ≠ 0 ∧
  ∃ s',
    handle_page_fault 300 s = (Ret (dict_len (page_table s) `mod` NUM_PAGES), s') ∧
    page_table s' !! 300 = Some (dict_len (page_table s) `mod` NUM_PAGES) ∧
    page_table s' !! 0 = Some (dict_len (page_table s) `mod` NUM_PAGES) ∧
    slice (main_memory s') (dict_len (page_table s) `mod` NUM_PAGES * PAGE_SIZE) PAGE_SIZE =
      page_pattern 300.
Proof.
  intros s.
  assert (len (main_memory s) = MEMORY_SIZE) as H1 by (vm_compute; reflexivity).
  assert (page_table s !! 0 = Some (dict_len (page_table s) `mod` NUM_PAGES)) as H2
    by (vm_compute; reflexivity).
  assert (300 ≠ 0) as H3 by lia.
  refine (conj H1 (conj H2 (conj H3 _))).
  exact (handle_page_fault_reuses_frame s 300 0 H1 H2 H3).
Defined.

(** ** [access_cache] outside the memory *)

Lemma is_cached_false_line c pa line :
  c !! line_of pa = Some line → is_cached c pa = false →
  valid line && bool_decide (tag line = tag_of pa) = false.
Proof. unfold is_cached. by intros ->. Qed.

(** X10: [access_cache] of an address at or above [MEMORY_SIZE] that is
    not in the cache fails with [IndexError] at the first byte of the
    fill, after it has counted the miss: [cache_misses] is one more, and
    nothing else has changed; the line stays as it was. *)
Theorem access_cache_beyond_memory s physical_addr line :
  len (main_memory s) = MEMORY_SIZE →
  MEMORY_SIZE ≤ physical_addr →
  cache s !! line_of physical_addr = Some line →
  is_cached (cache s) physical_addr = false →
  access_cache physical_addr s = (Raise IndexError, set_stats incr_cache_misses s).
Proof.
  destruct s as [mem pt t q c st]. intros Hlen Hpa Hline Hmiss.
  cbn [main_memory cache] in *.
  apply (is_cached_false_line _ _ _ Hline) in Hmiss.
  rewrite line_of_eq in Hline. rewrite tag_of_eq in Hmiss.
  unfold access_cache. rewrite get_cache_components_eq.
  assert (0 ≤ (physical_addr `div` 8) `mod` 64 < 64) by (apply Z.mod_pos_bound; lia).
  erewrite bind_Ret; [|by eapply line_ref_eq; [lia|]].
  erewrite bind_Ret; [|by apply read_line_eq].
  rewrite Hmiss. msimpl. rewrite block_start_eq.
  change (range CACHE_LINE_SIZE) with (0 :: range_from 1 7).
  cbn [for_each]. msimpl. unfold load_memory. msimpl.
  unfold getitem, index_of. rewrite Hlen.
  rewrite decide_False, decide_False; cycle 1.
  { unfold MEMORY_SIZE in *. Z.div_mod_to_equations. lia. }
  { unfold MEMORY_SIZE in *. Z.div_mod_to_equations. lia. }
  reflexivity.
Qed.

(** An instance: the first address past the memory, in a fresh simulator. *)
Lemma access_cache_beyond_memory_witness :
  len (main_memory (initial_state (λ _, 0))) = MEMORY_SIZE ∧
  MEMORY_SIZE ≤ 65536 ∧
  cache (initial_state (λ _, 0)) !! line_of 65536 = Some empty_line ∧
  is_cached (cache (initial_state (λ _, 0))) 65536 = false ∧
  access_cache 65536 (initial_state (λ _, 0)) =
    (Raise IndexError, set_stats incr_cache_misses (initial_state (λ _, 0))).
Proof.
  assert (len (main_memory (initial_state (λ _, 0))) = MEMORY_SIZE) as H1
    by (vm_compute; reflexivity).
  assert (MEMORY_SIZE ≤ 65536) as H2 by (unfold MEMORY_SIZE; lia).
  assert (cache (initial_state (λ _, 0)) !! line_of 65536 = Some empty_line) as H3
    by (vm_compute; reflexivity).
  assert (is_cached (cache (initial_state (λ _, 0))) 65536 = false) as H4
    by (vm_compute; reflexivity).
  refine (conj H1 (conj H2 (conj H3 (conj H4 _)))).
  exact (access_cache_beyond_memory (initial_state (λ _, 0)) 65536 empty_line H1 H2 H3 H4).
Defined.

(** ** [access_cache] below zero *)

Lemma index_of_negative n i : - n ≤ i < 0 → index_of n i = Some (Z.to_nat (n + i)).
Proof.
  intros. unfold index_of. rewrite decide_False by lia. by rewrite decide_True.
Qed.

Lemma load_memory_negative mem pt t q c st i v :
  - len mem ≤ i < 0 → mem !! Z.to_nat (len mem + i) = Some v →
  load_memory i (State mem pt t q c st) = (Ret v, State mem pt t q c st).
Proof.
  intros Hi Hv. unfold load_memory. msimpl. unfold getitem.
  rewrite index_of_negative by done. cbn. by rewrite Hv.
Qed.

Lemma fill_loop_negative (k : nat) mem pt t q c st r line b :
  c !! r = Some line → len (data line) = CACHE_LINE_SIZE →
  Forall is_byte mem → - len mem ≤ b → b + Z.of_nat k ≤ 0 →
  Z.of_nat k ≤ CACHE_LINE_SIZE →
  for_each (seqZ 0 (Z.of_nat k))
    (λ i, v <- load_memory (b + i) ;; store_line_data r i v)
    (State mem pt t q c st) =
  (Ret tt,
   State mem pt t q
     (<[r:=set_data (λ _, list_inserts 0 (slice mem (len mem + b) (Z.of_nat k)) (data line))
             line]> c)
     st).
Proof.
  intros Hr Hlen Hbytes Hb. induction k as [|k IH]; intros Hk Hk8.
  - rewrite seqZ_nil by done. cbn. unfold ret. do 2 f_equal.
    rewrite list_insert_id; [done|]. by destruct line.
  - rewrite seqZ_S, for_each_app, IH by lia. clear IH.
    cbn [for_each]. rewrite Z.add_0_l.
    destruct (lookup_lt_is_Some_2 mem (Z.to_nat (len mem + (b + Z.of_nat k)))) as [v Hv].
    { unfold len in *. lia. }
    assert (is_byte v) as Hbyte by (by eapply Forall_lookup_1).
    assert (r < length c)%nat as Hrlt by (by eapply lookup_lt_Some).
    erewrite bind_Ret; cycle 1.
    { erewrite bind_Ret; [|apply load_memory_negative; [lia|done]].
      unfold store_line_data.
      erewrite bind_Ret; [|apply read_line_eq, list_lookup_insert_eq, Hrlt].
      cbn [data set_data].
      rewrite bytearray_setitem_inside; cycle 1.
      { done. }
      { unfold len in *. rewrite length_inserts. lia. }
      msimpl. apply write_line_eq, list_lookup_insert_eq, Hrlt. }
    unfold ret. rewrite list_insert_insert_eq. do 3 f_equal.
    unfold set_data; cbn [tag data valid dirty]. f_equal.
    unfold slice. rewrite Nat2Z.id.
    replace (Z.to_nat (Z.of_nat (S k))) with (S k) by lia.
    rewrite (take_S_r _ _ v); cycle 1.
    { rewrite lookup_drop, <- Hv. f_equal. unfold len in *. lia. }
    rewrite list_inserts_app_l. cbn [list_inserts].
    rewrite length_take, length_drop. f_equal.
    unfold len in *. lia.
Qed.

(** X11: [access_cache] does not reject a negative address.  For an
    address in [[-MEMORY_SIZE, 0)] that is not in the cache, the fill
    reads the memory with negative indices, which count from its end: the
    call returns the byte at [MEMORY_SIZE + physical_addr] as a miss and
    leaves the line valid with the negative tag [physical_addr >> 9] and
    the block at [MEMORY_SIZE + block_start]. *)
Theorem access_cache_negative s physical_addr line :
  memory_ok (main_memory s) →
  - MEMORY_SIZE ≤ physical_addr < 0 →
  cache s !! line_of physical_addr = Some line →
  len (data line) = CACHE_LINE_SIZE →
  is_cached (cache s) physical_addr = false →
  let block :=
    slice (main_memory s) (MEMORY_SIZE + block_start physical_addr) CACHE_LINE_SIZE in
  ∃ v s',
    access_cache physical_addr s = (Ret (v, false), s') ∧
    main_memory s !! Z.to_nat (MEMORY_SIZE + physical_addr) = Some v ∧
    cache s' !! line_of physical_addr =
      Some (CacheLine (physical_addr ≫ 9) block true false) ∧
    physical_addr ≫ 9 < 0 ∧
    main_memory s' = main_memory s.
Proof.
  destruct s as [mem pt t q c st]. intros [Hlen Hbytes] Hpa Hline Hdlen Hmiss block.
  cbn [main_memory cache] in *.
  apply (is_cached_false_line _ _ _ Hline) in Hmiss.
  subst block. unfold block_start. rewrite block_start_eq.
  rewrite line_of_eq in *. rewrite tag_of_eq in Hmiss.
  assert (0 ≤ (physical_addr `div` 8) `mod` 64 < 64) by (apply Z.mod_pos_bound; lia).
  assert (0 ≤ physical_addr `mod` 8 < 8) as Hoff by (apply Z.mod_pos_bound; lia).
  set (b := physical_addr - physical_addr `mod` 8).
  assert (- MEMORY_SIZE ≤ b ∧ b + 8 ≤ 0) as [Hb1 Hb2].
  { unfold b, MEMORY_SIZE in *. Z.div_mod_to_equations. lia. }
  assert (len (slice mem (MEMORY_SIZE + b) CACHE_LINE_SIZE) = CACHE_LINE_SIZE) as Hslice.
  { apply length_slice; rewrite ?Hlen; unfold CACHE_LINE_SIZE; lia. }
  destruct (lookup_lt_is_Some_2 (slice mem (MEMORY_SIZE + b) CACHE_LINE_SIZE)
              (Z.to_nat (physical_addr `mod` 8))) as [v Hv].
  { unfold len, CACHE_LINE_SIZE in *. lia. }
  assert (Z.to_nat ((physical_addr `div` 8) `mod` 64) < length c)%nat as Hrlt
    by (by eapply lookup_lt_Some).
  exists v. eexists. split_and!.
  - unfold access_cache. rewrite get_cache_components_eq.
    erewrite bind_Ret; [|by eapply line_ref_eq; [lia|]].
    erewrite bind_Ret; [|by apply read_line_eq].
    rewrite Hmiss. msimpl. rewrite block_start_eq. fold b.
    rewrite range_seqZ. change CACHE_LINE_SIZE with (Z.of_nat 8) at 1.
    erewrite bind_Ret; cycle 1.
    { apply fill_loop_negative;
        [done|done|done|rewrite Hlen; lia|lia|unfold CACHE_LINE_SIZE; lia]. }
    change (Z.of_nat 8) with CACHE_LINE_SIZE. rewrite Hlen.
    rewrite list_inserts_0_full; cycle 1.
    { unfold len in *. lia. }
    erewrite bind_Ret; [|apply write_line_eq, list_lookup_insert_eq, Hrlt].
    rewrite list_insert_insert_eq.
    erewrite bind_Ret; [|apply write_line_eq, list_lookup_insert_eq, Hrlt].
    rewrite list_insert_insert_eq.
    erewrite bind_Ret; [|apply write_line_eq, list_lookup_insert_eq, Hrlt].
    rewrite list_insert_insert_eq.
    erewrite bind_Ret; [|apply read_line_eq, list_lookup_insert_eq, Hrlt].
    cbn [set_data set_tag set_valid set_dirty tag data valid dirty].
    rewrite (getitem_inside _ _ v) by (done || lia). msimpl. reflexivity.
  - rewrite <- Hv, lookup_slice by (unfold CACHE_LINE_SIZE; lia).
    f_equal. unfold b, MEMORY_SIZE in *. lia.
  - cbn [cache]. rewrite list_lookup_insert_eq by done.
    rewrite Z.shiftr_div_pow2 by lia. reflexivity.
  - rewrite Z.shiftr_div_pow2 by lia. change (2 ^ 9) with 512.
    Z.div_mod_to_equations. lia.
  - reflexivity.
Qed.

(** An instance: address -1 in a fresh simulator reads the last byte. *)
Lemma access_cache_negative_witness :
  memory_ok (main_memory (initial_state (λ _, 0))) ∧
  - MEMORY_SIZE ≤ -1 < 0 ∧
  cache (initial_state (λ _, 0)) !! line_of (-1) = Some empty_line ∧
  len (data empty_line) = CACHE_LINE_SIZE ∧
  is_cached (cache (initial_state (λ _, 0))) (-1) = false ∧
  ∃ v s',
    access_cache (-1) (initial_state (λ _, 0)) = (Ret (v, false), s') ∧
    main_memory (initial_state (λ _, 0)) !! Z.to_nat (MEMORY_SIZE + -1) = Some v ∧
    cache s' !! line_of (-1) =
      Some (CacheLine ((-1) ≫ 9)
              (slice (main_memory (initial_state (λ _, 0)))
                     (MEMORY_SIZE + block_start (-1)) CACHE_LINE_SIZE)
              true false) ∧
    (-1) ≫ 9 < 0 ∧
    main_memory s' = main_memory (initial_state (λ _, 0)).
Proof.
  assert (memory_ok (main_memory (initial_state (λ _, 0)))) as H1
    by apply fresh_memory_ok.
  assert (- MEMORY_SIZE ≤ -1 < 0) as H2 by (unfold MEMORY_SIZE; lia).
  assert (cache (initial_state (λ _, 0)) !! line_of (-1) = Some empty_line) as H3
    by (vm_compute; reflexivity).
  assert (len (data empty_line) = CACHE_LINE_SIZE) as H4 by reflexivity.
  assert (is_cached (cache (initial_state (λ _, 0))) (-1) = false) as H5
    by (vm_compute; reflexivity).
  refine (conj H1 (conj H2 (conj H3 (conj H4 (conj H5 _))))).
  exact (access_cache_negative (initial_state (λ _, 0)) (-1) empty_line H1 H2 H3 H4 H5).
Defined.

(** ** [update_tlb], in general *)

(** X12: on a TLB whose queue lists its keys, each once, and which holds
    at most [TLB_SIZE] entries, [update_tlb] returns and keeps all that.
    A page already there keeps its frame, whatever frame is passed; a new
    page gets the frame and goes to the back of the queue.  No other
    entry changes but that of the page at the front of the queue, which
    is dropped when, and only when, the page is new and the TLB is full.
    The rest of the state is untouched. *)
Theorem update_tlb_fifo s p f :
  dom (tlb s) =@{gset Z} list_to_set (tlb_queue s) →
  NoDup (tlb_queue s) →
  dict_len (tlb s) ≤ TLB_SIZE →
  ∃ s',
    update_tlb p f s = (Ret tt, s') ∧
    tlb s' !! p = Some (default f (tlb s !! p)) ∧
    dom (tlb s') =@{gset Z} list_to_set (tlb_queue s') ∧
    NoDup (tlb_queue s') ∧
    dict_len (tlb s') ≤ TLB_SIZE ∧
    (∀ p', p' ≠ p → head (tlb_queue s) ≠ Some p' → tlb s' !! p' = tlb s !! p') ∧
    (is_Some (tlb s !! p) → s' = s) ∧
    (tlb s !! p = None → last (tlb_queue s') = Some p) ∧
    (tlb s !! p = None → dict_len (tlb s) < TLB_SIZE →
     tlb s' = <[p:=f]> (tlb s) ∧ tlb_queue s' = tlb_queue s ++ [p]) ∧
    (tlb s !! p = None → dict_len (tlb s) = TLB_SIZE →
     ∃ oldest, head (tlb_queue s) = Some oldest ∧ tlb s' !! oldest = None ∧
               tlb_queue s' = tail (tlb_queue s) ++ [p]) ∧
    main_memory s' = main_memory s ∧ page_table s' = page_table s ∧
    cache s' = cache s ∧ stats s' = stats s.
Proof.
  destruct s as [mem pt t q c st]. cbn [main_memory page_table tlb tlb_queue cache stats].
  intros Hkeys Hnodup Hcap.
  destruct (t !! p) as [f0|] eqn:Hp.
  { exists (State mem pt t q c st). split; [by eapply update_tlb_present|].
    cbn [main_memory page_table tlb tlb_queue cache stats default].
    split_and!; try done. }
  assert (tlb_ok (<[p:=f]> t) t q) as Hok.
  { split; [by apply insert_subseteq|done..]. }
  destruct (update_tlb_ok mem (<[p:=f]> t) t q c st p f Hok Hp (lookup_insert_eq _ _ _))
    as (t0 & q0 & _ & [_ Hkeys' Hnodup' Hcap']).
  destruct (decide (dict_len t < TLB_SIZE)) as [Hroom|Hfull].
  - pose proof (update_tlb_room mem (<[p:=f]> t) t q c st p f Hp Hroom) as Heq.
    destruct (update_tlb_ok mem (<[p:=f]> t) t q c st p f Hok Hp (lookup_insert_eq _ _ _))
      as (t1 & q1 & Heq1 & [_ Hk1 Hn1 Hc1]).
    rewrite Heq in Heq1. injection Heq1 as <- <-.
    exists (State mem pt (<[p:=f]> t) (q ++ [p]) c st).
    split; [by apply update_tlb_room|].
    cbn [main_memory page_table tlb tlb_queue cache stats default].
    split_and!; try done.
    + apply lookup_insert_eq.
    + intros p' Hne _. by rewrite lookup_insert_ne.
    + intros _. apply last_snoc.
    + intros _ Heq16. lia.
  - destruct q as [|oldest q'].
    { cbn in Hkeys. apply dom_empty_inv_L in Hkeys. subst t.
      unfold dict_len, TLB_SIZE in Hfull. rewrite map_size_empty in Hfull. lia. }
    assert (is_Some (t !! oldest)) as [fo Ho].
    { apply elem_of_dom. rewrite Hkeys. apply elem_of_list_to_set. by left. }
    pose proof (update_tlb_evict mem (<[p:=f]> t) t (oldest :: q') c st p f oldest q' fo
                  Hp ltac:(lia) eq_refl Ho) as Heq.
    destruct (update_tlb_ok mem (<[p:=f]> t) t (oldest :: q') c st p f Hok Hp
                (lookup_insert_eq _ _ _)) as (t1 & q1 & Heq1 & [_ Hk1 Hn1 Hc1]).
    rewrite Heq in Heq1. injection Heq1 as <- <-.
    exists (State mem pt (<[p:=f]> (delete oldest t)) (q' ++ [p]) c st).
    split; [eapply update_tlb_evict; [done|lia|done|done]|].
    cbn [main_memory page_table tlb tlb_queue cache stats default head tail].
    assert (oldest ≠ p) as Hop by congruence.
    split_and!; try done.
    + apply lookup_insert_eq.
    + intros p' Hne Hhead. rewrite lookup_insert_ne by done.
      apply lookup_delete_ne. congruence.
    + intros _. apply last_snoc.
    + intros _ _. exists oldest. split_and!; [done| |done].
      rewrite lookup_insert_ne by done. apply lookup_delete_eq.
Qed.

(** An instance: page 7 enters the empty TLB. *)
Lemma update_tlb_fifo_witness :
  let s := State [] ∅ ∅ [] [] (Statistics 0 0 0 0 0 0) in
  dom (tlb s) =@{gset Z} list_to_set (tlb_queue s) ∧
  NoDup (tlb_queue s) ∧
  dict_len (tlb s) ≤ TLB_SIZE ∧
  ∃ s',
    update_tlb 7 3 s = (Ret tt, s') ∧
    tlb s' !! 7 = Some (default 3 (tlb s !! 7)) ∧
    dom (tlb s') =@{gset Z} list_to_set (tlb_queue s') ∧
    NoDup (tlb_queue s') ∧
    dict_len (tlb s') ≤ TLB_SIZE ∧
    (∀ p', p' ≠ 7 → head (tlb_queue s) ≠ Some p' → tlb s' !! p' = tlb s !! p') ∧
    (is_Some (tlb s !! 7) → s' = s) ∧
    (tlb s !! 7 = None → last (tlb_queue s') = Some 7) ∧
    (tlb s !! 7 = None → dict_len (tlb s) < TLB_SIZE →
     tlb s' = <[7:=3]> (tlb s) ∧ tlb_queue s' = tlb_queue s ++ [7]) ∧
    (tlb s !! 7 = None → dict_len (tlb s) = TLB_SIZE →
     ∃ oldest, head (tlb_queue s) = Some oldest ∧ tlb s' !! oldest = None ∧
               tlb_queue s' = tail (tlb_queue s) ++ [7]) ∧
    main_memory s' = main_memory s ∧ page_table s' = page_table s ∧
    cache s' = cache s ∧ stats s' = stats s.
Proof.
  intros s.
  assert (dom (tlb s) =@{gset Z} list_to_set (tlb_queue s)) as H1 by apply dom_empty_L.
  assert (NoDup (tlb_queue s)) as H2 by apply NoDup_nil_2.
  assert (dict_len (tlb s) ≤ TLB_SIZE) as H3 by (vm_compute; discriminate).
  refine (conj H1 (conj H2 (conj H3 _))).
  exact (update_tlb_fifo s 7 3 H1 H2 H3).
Defined.

(** X13: when the queue has lost step with a full TLB, [update_tlb] of a
    new page fails.  With an empty queue [popleft] raises [IndexError]
    and nothing has changed; with a front page that the TLB does not hold
    [del] raises [KeyError], and the queue has already lost that page. *)
Theorem update_tlb_out_of_step mem pt t q c st p f :
  t !! p = None → TLB_SIZE ≤ dict_len t →
  match q with
  | [] =>
      update_tlb p f (State mem pt t q c st) = (Raise IndexError, State mem pt t q c st)
  | oldest :: q' =>
      t !! oldest = None →
      update_tlb p f (State mem pt t q c st) = (Raise KeyError, State mem pt t q' c st)
  end.
Proof.
  intros Hp Hfull.
  assert ((dict_len t >=? TLB_SIZE) = true) as Hge by (by apply Z.geb_le).
  destruct q as [|oldest q'].
  - unfold update_tlb. msimpl. rewrite contains_None, Hge by done. by msimpl.
  - intros Ho. unfold update_tlb. msimpl. rewrite contains_None, Hge by done.
    msimpl. cbn [popleft]. msimpl. unfold dict_delitem. by rewrite Ho.
Qed.

(** An instance: a full TLB whose queue is empty. *)
Lemma update_tlb_out_of_step_witness :
  full_tlb !! 99 = None ∧ TLB_SIZE ≤ dict_len full_tlb ∧
  update_tlb 99 0 (State [] ∅ full_tlb [] [] (Statistics 0 0 0 0 0 0)) =
    (Raise IndexError, State [] ∅ full_tlb [] [] (Statistics 0 0 0 0 0 0)).
Proof.
  assert (full_tlb !! 99 = None) as H1 by (vm_compute; reflexivity).
  assert (TLB_SIZE ≤ dict_len full_tlb) as H2 by (vm_compute; discriminate).
  refine (conj H1 (conj H2 _)).
  exact (update_tlb_out_of_step [] ∅ full_tlb [] [] (Statistics 0 0 0 0 0 0) 99 0 H1 H2).
Defined.

(** ** A direct-mapped cache: one block per line *)

(** X14: the cache holds one block per line.  After [access_cache] of an
    address, that address is in the cache and no address of the same
    line with another tag is: whatever block the line held has been
    replaced, so two such addresses accessed in turn miss every time. *)
Theorem cache_conflict s pa1 pa2 line :
  memory_ok (main_memory s) →
  0 ≤ pa2 < MEMORY_SIZE →
  cache s !! line_of pa2 = Some line →
  len (data line) = CACHE_LINE_SIZE →
  line_of pa1 = line_of pa2 → tag_of pa1 ≠ tag_of pa2 →
  ∃ v s',
    access_cache pa2 s = (Ret (v, is_cached (cache s) pa2), s') ∧
    is_cached (cache s') pa2 = true ∧
    is_cached (cache s') pa1 = false.
Proof.
  destruct s as [mem pt t q c st]. cbn [main_memory cache].
  intros [Hlen Hbytes] Hpa Hline Hdlen Hsame Hne.
  assert (line_of pa2 < length c)%nat as Hlt by (by eapply lookup_lt_Some).
  destruct (is_cached c pa2) eqn:Hc.
  - unfold is_cached in Hc. rewrite Hline in Hc.
    pose proof Hc as Hc'.
    apply andb_true_iff in Hc' as [Hvalid Htag%bool_decide_eq_true_1].
    destruct (lookup_lt_is_Some_2 (data line) (Z.to_nat (offset_of pa2))) as [v Hv].
    { destruct (block_offset pa2) as (_ & Ho & _); [lia|]. unfold len in Hdlen. lia. }
    exists v. eexists. split; [by eapply access_cache_hit|].
    cbn [cache]. unfold is_cached. rewrite Hsame, Hline. split; [done|].
    rewrite Hvalid, bool_decide_eq_false_2; [done|congruence].
  - apply (is_cached_false_line _ _ _ Hline) in Hc.
    destruct (access_cache_miss mem pt t q c st pa2 line) as (v & _ & Heq); [done..|].
    exists v. eexists. split; [exact Heq|].
    cbn [cache]. unfold is_cached. rewrite Hsame.
    rewrite list_lookup_insert_eq by done. cbn [valid tag].
    rewrite bool_decide_eq_true_2 by done.
    rewrite bool_decide_eq_false_2 by congruence. done.
Qed.

(** An instance: addresses 0 and 512 of a fresh simulator share line 0. *)
Lemma cache_conflict_witness :
  memory_ok (main_memory (initial_state (λ _, 0))) ∧
  0 ≤ 0 < MEMORY_SIZE ∧
  cache (initial_state (λ _, 0)) !! line_of 0 = Some empty_line ∧
  len (data empty_line) = CACHE_LINE_SIZE ∧
  line_of 512 = line_of 0 ∧ tag_of 512 ≠ tag_of 0 ∧
  ∃ v s',
    access_cache 0 (initial_state (λ _, 0)) =
      (Ret (v, is_cached (cache (initial_state (λ _, 0))) 0), s') ∧
    is_cached (cache s') 0 = true ∧
    is_cached (cache s') 512 = false.
Proof.
  assert (memory_ok (main_memory (initial_state (λ _, 0)))) as H1
    by apply fresh_memory_ok.
  assert (0 ≤ 0 < MEMORY_SIZE) as H2 by (unfold MEMORY_SIZE; lia).
  assert (cache (initial_state (λ _, 0)) !! line_of 0 = Some empty_line) as H3
    by (vm_compute; reflexivity).
  assert (len (data empty_line) = CACHE_LINE_SIZE) as H4 by reflexivity.
  assert (line_of 512 = line_of 0) as H5 by reflexivity.
  assert (tag_of 512 ≠ tag_of 0) as H6 by (vm_compute; discriminate).
  refine (conj H1 (conj H2 (conj H3 (conj H4 (conj H5 (conj H6 _)))))).
  exact (cache_conflict (initial_state (λ _, 0)) 512 0 empty_line H1 H2 H3 H4 H5 H6).
Defined.

(** ** A resident page *)

(** X15: in a state reached from the reset state, the translation of an
    address whose page is in the page table takes the frame from the
    table, by way of the TLB or not, and leaves the page table and the
    memory as they are: a page faults once only, and keeps its frame. *)
Theorem resident_page_stays rng cs va f :
  let s := run_calls cs (initial_state rng) in
  page_table s !! Z.land (va ≫ 8) 255 = Some f →
  ∃ r s',
    translate_address va s = (Ret r, s') ∧
    frame_num r = f ∧
    physical_addr r = f * PAGE_SIZE + Z.land va 255 ∧
    page_table s' = page_table s ∧
    main_memory s' = main_memory s ∧
    page_faults (stats s') = page_faults (stats s).
Proof.
  intros s Hp.
  pose proof (inv_run_calls cs _ (inv_initial rng)) as Hs. fold s in Hs.
  destruct (translate_address_inv va s Hs)
    as (r & s' & Heq & _ & _ & Hpage & Hframe & Hpa & _ & _ & _ & _ & _ & _ & Hfaults).
  destruct (translate_address_step va s Hs)
    as (r0 & s0 & Heq0 & _ & _ & _ & Hpt & _ & _ & Hmem & _).
  rewrite Heq in Heq0. injection Heq0 as <- <-.
  rewrite Hpage in *.
  rewrite (contains_Some _ _ f) in Hpt, Hmem, Hfaults by done.
  rewrite Hpt, Hp in Hframe. injection Hframe as Hf.
  exists r, s'. split_and!; try done. by rewrite Hpa, Hf.
Qed.

(** An instance: page 0 after one access of a fresh simulator. *)
Lemma resident_page_stays_witness :
  page_table (run_calls [Translate 0] (initial_state (λ _, 0))) !! Z.land (7 ≫ 8) 255
    = Some 0 ∧
  ∃ r s',
    translate_address 7 (run_calls [Translate 0] (initial_state (λ _, 0))) = (Ret r, s') ∧
    frame_num r = 0 ∧
    physical_addr r = 0 * PAGE_SIZE + Z.land 7 255 ∧
    page_table s' = page_table (run_calls [Translate 0] (initial_state (λ _, 0))) ∧
    main_memory s' = main_memory (run_calls [Translate 0] (initial_state (λ _, 0))) ∧
    page_faults (stats s') =
      page_faults (stats (run_calls [Translate 0] (initial_state (λ _, 0)))).
Proof.
  assert (page_table (run_calls [Translate 0] (initial_state (λ _, 0)))
            !! Z.land (7 ≫ 8) 255 = Some 0) as H by (vm_compute; reflexivity).
  split; [exact H|].
  exact (resident_page_stays (λ _, 0) [Translate 0] 7 0 H).
Defined.

(** ** The trace and the counters *)

(** X16: in a state reached from the reset state, the record, the trace
    and the counters of a translation tell one story.  The trace is the
    one that goes with the record; [tlb_hit] says whether the page was in
    the TLB; each counter moves by one exactly when its event is in the
    record, [page_faults] when the page was not resident, and a TLB hit
    is never a page fault. *)
Theorem trace_and_counters rng cs va :
  let s := run_calls cs (initial_state rng) in
  ∃ r s',
    translate_address va s = (Ret r, s') ∧
    let resident := contains (page_table s) (page_num r) in
    log r = trace_of r resident ∧
    tlb_hit r = contains (tlb s) (page_num r) ∧
    tlb_hit r && negb resident = false ∧
    stats s' =
      Statistics (incr_if (tlb_hit r) (tlb_hits (stats s)))
                 (incr_if (negb (tlb_hit r)) (tlb_misses (stats s)))
                 (incr_if (cache_hit r) (cache_hits (stats s)))
                 (incr_if (negb (cache_hit r)) (cache_misses (stats s)))
                 (incr_if (negb resident) (page_faults (stats s)))
                 (total_accesses (stats s) + 1).
Proof.
  intros s.
  pose proof (inv_run_calls cs _ (inv_initial rng)) as Hs. fold s in Hs.
  destruct (translate_address_inv va s Hs)
    as (r & s' & Heq & Hs' & _ & Hpage & _ & _ & _ & _ & Hhit & Htotal & Hhits & Hchits & Hfaults).
  destruct (translate_address_step va s Hs)
    as (r0 & s0 & Heq0 & _ & _ & _ & _ & _ & _ & _ & Hlog).
  rewrite Heq in Heq0. injection Heq0 as <- <-.
  rewrite <- Hpage in Hlog.
  exists r, s'. split; [done|]. cbn zeta. split_and!; try done.
  - rewrite Hhit.
    destruct (contains (tlb s) (page_num r)) eqn:Hin; [|done].
    apply contains_true_Some in Hin as [f Hf].
    eapply lookup_weaken in Hf; [|apply Hs]. by rewrite (contains_Some _ _ f).
  - destruct Hs as [_ _ _ _ [Hc1 Hc2]]. destruct Hs' as [_ _ _ _ [Hc1' Hc2']].
    destruct (stats s') as [h m ch cm pf ta], (stats s) as [h0 m0 ch0 cm0 pf0 ta0].
    cbn [tlb_hits tlb_misses cache_hits cache_misses page_faults total_accesses] in *.
    destruct (tlb_hit r), (cache_hit r); cbn [incr_if negb] in *; f_equal; lia.
Qed.

(** ** The window of [gui_viewer.py] *)

Section window.

Variable strip : string → string.
Variable lower : string → string.
Variable int_ : string → Z → option Z.

Lemma process_address_inv g :
  inv (simulator g) →
  ∃ ev g',
    process_address strip lower int_ g = (Ret [ev], g') ∧
    inv (simulator g') ∧
    addr_var g' = addr_var g ∧ addr_format g' = addr_format g ∧
    match ev with
    | showerror _ _ => simulator g' = simulator g
    | update_display (Some r) =>
        0 ≤ virtual_addr r ≤ 0xFFFF ∧
        translate_address (virtual_addr r) (simulator g) = (Ret r, simulator g')
    | _ => False
    end.
Proof.
  intros Hs. unfold process_address.
  destruct (String.eqb (strip (addr_var g)) ""); [by eexists _, _|].
  cbn zeta.
  match goal with
  | |- context [match ?x with Some _ => _ | None => _ end] => destruct x as [va|]
  end; [|by eexists _, _].
  destruct ((va <? 0) || (va >? 0xFFFF)) eqn:Hrange; [by eexists _, _|].
  apply orb_false_iff in Hrange as [H0%Z.ltb_ge Hmax].
  rewrite Z.gtb_ltb in Hmax. apply Z.ltb_ge in Hmax.
  destruct (translate_address_inv va _ Hs) as (r & s' & Heq & Hs' & Hva & _).
  rewrite Heq. eexists _, _. split; [reflexivity|].
  cbn [simulator addr_var addr_format]. rewrite Hva. by split_and!.
Qed.

Lemma session_snoc actions a g :
  session strip lower int_ (actions ++ [a]) g =
  do_action strip lower int_ a (session strip lower int_ actions g).
Proof. unfold session. by rewrite foldl_snoc. Qed.

Lemma session_inv actions rng :
  inv (simulator (session strip lower int_ actions (gui_init rng))).
Proof.
  induction actions as [|a actions IH] using rev_ind; [apply inv_initial|].
  rewrite session_snoc. destruct a as [text|hex| |rng']; cbn [do_action simulator]; try done.
  - destruct (process_address_inv _ IH) as (ev & g' & -> & Hs' & _). done.
  - apply inv_initial.
Qed.

(** X17: whatever the user types, picks and presses, and whatever [strip],
    [lower] and [int] make of the text, [process_address] ends with one
    thing shown: a message box, and then the simulator is as it was, or
    the refreshed display of a translation, and then the address passed
    to [translate_address] was in [[0, 0xFFFF]].  No exception leaves it,
    and the text and the format are not changed. *)
Theorem process_address_guarded actions rng :
  let g := session strip lower int_ actions (gui_init rng) in
  ∃ ev g',
    process_address strip lower int_ g = (Ret [ev], g') ∧
    addr_var g' = addr_var g ∧ addr_format g' = addr_format g ∧
    match ev with
    | showerror _ _ => simulator g' = simulator g
    | update_display (Some r) =>
        0 ≤ virtual_addr r ≤ 0xFFFF ∧
        translate_address (virtual_addr r) (simulator g) = (Ret r, simulator g')
    | _ => False
    end.
Proof.
  intros g.
  destruct (process_address_inv g (session_inv actions rng)) as (ev & g' & Heq & _ & H).
  by exists ev, g'.
Qed.

End window.
